(** * Drawing pad: the stroke renderer and the drawing surface controller

    A shallow embedding of the canvas component (components/Canvas.tsx, in
    its two revisions) and of the application shell (App.tsx):

    - [drawSmoothedPath], the stroke renderer, as a program in a small
      monad that threads the 2D context and can raise a TypeError;
    - the component state [isDrawing] / [history] / [currentPath] and its
      handlers [startDrawing], [draw], [finishDrawing], [clear], [undo],
      [loadFromHistory], the [onload] callback of [loadImage], and
      [getImageData];
    - [handleBeautify] of the application shell.

    JavaScript numbers are IEEE 754 binary64 values, modelled by Rocq's
    primitive floats; array lengths and indices are natural numbers.

    Two event models.  The listeners [draw] and [finishDrawing] close
    over the [isDrawing] and [currentPath] of the render in which they were
    registered, and React does not render after every event.  [Mounted],
    [deliver] and [play] keep the state of the last render apart from the
    state with the updates queued since, with renders as steps of their
    own.  [Component], [step] and [run] are the special case in which the
    component renders after every event, so that listeners and state
    agree ([play_rendered]). *)

From Stdlib Require Import String Ascii List Bool Arith Lia PrimFloat.
From Equations Require Import Equations.
Import ListNotations.

Local Open Scope string_scope.
Local Open Scope list_scope.

(** ** Data model *)

Definition number := float.

(** Modelled from the spec: the declaration of [Point] (types.ts) is not
    among the sources; a 2D coordinate [{x: number, y: number}], with the
    two fields the component reads and writes. *)
Record Point := mkPoint { x : number; y : number }.

(** Modelled from the spec: the declaration of [Path] (types.ts) is not
    among the sources; [{points, color, strokeWidth}], the three fields
    the component reads and writes. *)
Record Path := mkPath {
  points : list Point;
  color : string;
  strokeWidth : number
}.

(** ** The 2D rendering context

    A context is modelled by the sequence of property assignments and
    method calls made on it, oldest first. *)

Inductive CanvasOp :=
| SetStrokeStyle (c : string)
| SetLineWidth (w : number)
| SetLineCap (s : string)
| SetLineJoin (s : string)
| SetFillStyle (c : string)
| FillRect (rx ry w h : number)
| BeginPath
| MoveTo (px py : number)
| LineTo (px py : number)
| QuadraticCurveTo (cpx cpy px py : number)
| Stroke
| DrawImage (src : string) (dx dy dw dh : number).

Definition Ctx := list CanvasOp.

(** A statement either completes normally or throws (reading a property
    of [undefined] is the only throw the renderer can reach); either way
    the operations already issued stay on the context. *)
Inductive Completion (A : Type) :=
| Normal (a : A) (ctx : Ctx)
| TypeError (ctx : Ctx).
Arguments Normal {A} a ctx.
Arguments TypeError {A} ctx.

Definition Js (A : Type) := Ctx -> Completion A.

Definition ret {A} (a : A) : Js A := fun ctx => Normal a ctx.

Definition bind {A B} (m : Js A) (k : A -> Js B) : Js B :=
  fun ctx =>
    match m ctx with
    | Normal a ctx' => k a ctx'
    | TypeError ctx' => TypeError ctx'
    end.

Declare Scope js_scope.
Delimit Scope js_scope with js.
Notation "v <- m ;; k" := (bind m (fun v => k))
  (at level 61, m at next level, right associativity) : js_scope.
Notation "m ;; k" := (bind m (fun _ => k))
  (at level 61, right associativity) : js_scope.
Local Open Scope js_scope.

(** One assignment or call on the context. *)
Definition emit (op : CanvasOp) : Js unit := fun ctx => Normal tt (ctx ++ [op]).

(** [a[i]] followed by a property read: an index past the end yields
    [undefined], whose property read throws. *)
Definition idx (a : list Point) (i : nat) : Js Point :=
  fun ctx =>
    match nth_error a i with
    | Some p => Normal p ctx
    | None => TypeError ctx
    end.

(** ** The stroke renderer (Canvas.tsx, [drawSmoothedPath]) *)

(** The loop [for (let i = 1; i < points.length - 2; i++)], entered at
    index [i].  It runs only when [points.length >= 3], where the
    truncated subtraction on [nat] agrees with the subtraction of
    JavaScript. *)
Equations? smoothing_loop (pts : list Point) (i : nat) : Js unit
  by wf (length pts - 2 - i) lt :=
  smoothing_loop pts i with lt_dec i (length pts - 2) => {
    | left _ :=
        pi <- idx pts i ;;
        pj <- idx pts (i + 1) ;;
        let xc := ((pi.(x) + pj.(x)) / 2)%float in
        let yc := ((pi.(y) + pj.(y)) / 2)%float in
        emit (QuadraticCurveTo pi.(x) pi.(y) xc yc) ;;
        smoothing_loop pts (i + 1);
    | right _ := ret tt }.
Proof. lia. Qed.

Definition drawSmoothedPath (path : Path) : Js unit :=
  emit (SetStrokeStyle path.(color)) ;;
  emit (SetLineWidth path.(strokeWidth)) ;;
  emit (SetLineCap "round") ;;
  emit (SetLineJoin "round") ;;
  let pts := path.(points) in
  if (length pts =? 0)%nat then ret tt
  else
    emit BeginPath ;;
    p0 <- idx pts 0 ;;
    emit (MoveTo p0.(x) p0.(y)) ;;
    (if (length pts <? 3)%nat then
       if (1 <? length pts)%nat then
         p1 <- idx pts 1 ;; emit (LineTo p1.(x) p1.(y))
       else
         q0 <- idx pts 0 ;; emit (LineTo q0.(x) q0.(y))
     else
       smoothing_loop pts 1 ;;
       pa <- idx pts (length pts - 2) ;;
       pb <- idx pts (length pts - 1) ;;
       emit (QuadraticCurveTo pa.(x) pa.(y) pb.(x) pb.(y))) ;;
    emit Stroke.

(** *** The smoothing scheme as the specification words it

    Start at the first sample; for each interior index [i] from 1 to
    [length - 3] inclusive, one quadratic curve with sample [i] as control
    point and the midpoint of samples [i] and [i+1] as endpoint; then one
    quadratic curve with the second-to-last sample as control point and
    the last sample as endpoint. *)

Definition midpoint (a b : Point) : Point :=
  mkPoint ((a.(x) + b.(x)) / 2)%float ((a.(y) + b.(y)) / 2)%float.

Definition sample (pts : list Point) (i : nat) : Point :=
  nth i pts (mkPoint 0%float 0%float).

Definition curve (control endpoint : Point) : CanvasOp :=
  QuadraticCurveTo control.(x) control.(y) endpoint.(x) endpoint.(y).

Definition interior_curve (pts : list Point) (i : nat) : CanvasOp :=
  curve (sample pts i) (midpoint (sample pts i) (sample pts (i + 1))).

Definition smoothed_commands (pts : list Point) : list CanvasOp :=
  MoveTo (sample pts 0).(x) (sample pts 0).(y)
  :: map (interior_curve pts) (seq 1 (length pts - 3))
  ++ [curve (sample pts (length pts - 2)) (sample pts (length pts - 1))].

Definition style_commands (path : Path) : list CanvasOp :=
  [SetStrokeStyle path.(color); SetLineWidth path.(strokeWidth);
   SetLineCap "round"; SetLineJoin "round"].

(** ** The drawing surface controller (Canvas.tsx, component [Canvas]) *)

Record Props := mkProps {
  strokeColor : string;
  brushWidth : number;          (* props.strokeWidth *)
  canvasColor : string
}.

(** The three [useState] cells of the component. *)
Record State := mkState {
  isDrawing : bool;
  history : list Path;
  currentPath : option Path
}.

Definition initialState : State := mkState false [] None.

(** What the handlers read of the mounted [<canvas>] element:
    [getBoundingClientRect()], [width], [height], and whether
    [getContext('2d')] yields a context. *)
Record HTMLCanvasElement := mkCanvas {
  rect_left : number;
  rect_top : number;
  width : number;
  height : number;
  context2d : bool
}.

Record Touch := mkTouch { touchX : number; touchY : number }.

Inductive Event :=
| MouseEvent (clientX clientY : number)
| TouchEvent (touches : list Touch).

(** [canvasRef.current] is [None] while the element is not mounted. *)
Definition getCoordinates (canvas : option HTMLCanvasElement) (event : Event)
  : option Point :=
  match canvas with
  | None => None
  | Some cv =>
      match event with
      | TouchEvent touches =>
          match touches with
          | [] => None
          | t :: _ =>
              Some (mkPoint (t.(touchX) - cv.(rect_left))%float
                            (t.(touchY) - cv.(rect_top))%float)
          end
      | MouseEvent clientX clientY =>
          Some (mkPoint (clientX - cv.(rect_left))%float
                        (clientY - cv.(rect_top))%float)
      end
  end.

Definition startDrawing (p : Props) (canvas : option HTMLCanvasElement)
  (event : Event) (s : State) : State :=
  match getCoordinates canvas event with
  | None => s
  | Some coords =>
      mkState true s.(history)
              (Some (mkPath [coords] p.(strokeColor) p.(brushWidth)))
  end.

Definition draw (canvas : option HTMLCanvasElement) (event : Event)
  (s : State) : State :=
  if negb s.(isDrawing) then s
  else
    match getCoordinates canvas event, s.(currentPath) with
    | None, _ => s
    | _, None => s
    | Some coords, Some _ =>
        mkState s.(isDrawing) s.(history)
          (match s.(currentPath) with
           | Some prev =>
               Some (mkPath (prev.(points) ++ [coords]) prev.(color)
                            prev.(strokeWidth))
           | None => None
           end)
    end.

Definition finishDrawing (s : State) : State :=
  if negb s.(isDrawing) then s
  else
    match s.(currentPath) with
    | None => s
    | Some cp =>
        mkState false
          (if (1 <? length cp.(points))%nat then s.(history) ++ [cp]
           else s.(history))
          None
    end.

(** [prev.slice(0, -1)]: the end index [-1] counts from the end and is
    clamped at 0. *)
Definition slice_0_minus1 {A} (a : list A) : list A :=
  firstn (length a - 1) a.

(** *** The imperative handle *)

Definition clear (s : State) : State := mkState s.(isDrawing) [] None.

Definition undo (s : State) : State :=
  mkState s.(isDrawing) (slice_0_minus1 s.(history)) None.

Definition loadFromHistory (newHistory : list Path) (s : State) : State :=
  mkState s.(isDrawing) newHistory None.

(** [array.forEach(f)] where [f] draws on the context. *)
Fixpoint forEach {A} (a : list A) (f : A -> Js unit) : Js unit :=
  match a with
  | [] => ret tt
  | e :: rest => f e ;; forEach rest f
  end.

Definition zero : number := 0%float.

(** [redrawCanvas], on a context whose previous operations are [ctx]; it
    returns at once when the canvas is not mounted or yields no context. *)
Definition redrawCanvas (p : Props) (canvas : option HTMLCanvasElement)
  (s : State) : Js unit :=
  match canvas with
  | None => ret tt
  | Some cv =>
      if negb cv.(context2d) then ret tt
      else
        emit (SetFillStyle p.(canvasColor)) ;;
        emit (FillRect zero zero cv.(width) cv.(height)) ;;
        let pathsToDraw :=
          match s.(currentPath) with
          | Some cp => s.(history) ++ [cp]
          | None => s.(history)
          end in
        forEach pathsToDraw drawSmoothedPath
  end.

(** A thrown value: an [Error] object with its message, or anything else. *)
Inductive Thrown :=
| ErrorObject (message : string)
| NotAnError.

(** What a call returns: a value, or an exception that escapes it. *)
Inductive Returned (A : Type) :=
| Value (a : A)
| Throws (e : Thrown).
Arguments Value {A} a.
Arguments Throws {A} e.

(** [toDataURL('image/png')] of the browser, as a function of the size of
    a fresh canvas and of the operations made on its context. *)
Definition Encoder := number -> number -> Ctx -> string.

(** The messages of the errors the JavaScript engine raises by itself. *)
Record Engine := mkEngine {
  (* TypeError of a property read on [undefined] *)
  typeErrorMessage : string;
  (* ReferenceError of an unbound identifier *)
  referenceErrorMessage : string -> string
}.

(** The operations [getImageData] makes on the temporary canvas. *)
Definition exportDrawing (p : Props) (cv : HTMLCanvasElement) (s : State)
  : Js unit :=
  emit (SetFillStyle p.(canvasColor)) ;;
  emit (FillRect zero zero cv.(width) cv.(height)) ;;
  forEach s.(history) drawSmoothedPath.

(** [tempCtx] is whether the temporary canvas yields a 2D context. *)
Definition getImageData (toDataURL : Encoder) (js : Engine) (p : Props)
  (canvas : option HTMLCanvasElement) (tempCtx : bool) (s : State)
  : Returned string :=
  match canvas with
  | None => Value ""
  | Some cv =>
      if negb tempCtx then Value ""
      else
        match exportDrawing p cv s [] with
        | Normal _ ctx => Value (toDataURL cv.(width) cv.(height) ctx)
        | TypeError _ => Throws (ErrorObject js.(typeErrorMessage))
        end
  end.

(** *** [loadImage] (second revision of Canvas.tsx)

    The call returns at once; [None] when no canvas or no context is
    available, otherwise the image whose [src] was set and whose [onload]
    is pending.  The callback closes over [canvasColor]. *)
Record PendingImage := mkPending { img_src : string; img_fill : string }.

Definition loadImage (p : Props) (canvas : option HTMLCanvasElement)
  (imageUrl : string) : option PendingImage :=
  match canvas with
  | None => None
  | Some cv =>
      if negb cv.(context2d) then None
      else Some (mkPending imageUrl p.(canvasColor))
  end.

(** State part of [img.onload]. *)
Definition onload (s : State) : State := mkState s.(isDrawing) [] None.

(** Painting part of [img.onload]. *)
Definition onload_paint (img : PendingImage) (cv : HTMLCanvasElement) : Js unit :=
  emit (SetFillStyle img.(img_fill)) ;;
  emit (FillRect zero zero cv.(width) cv.(height)) ;;
  emit (DrawImage img.(img_src) zero zero cv.(width) cv.(height)).

(** *** The component as a transition system

    One action per event the component reacts to; the pointer actions
    carry what [canvasRef.current] is when the event arrives.  In [step]
    the component has rendered since the event before, so a listener's
    closure holds the very state it updates. *)
Record Component := mkComponent { props : Props; state : State }.

Inductive Action :=
| SetProps (p : Props)                    (* the parent renders new props *)
| PointerDown (canvas : option HTMLCanvasElement) (event : Event)
                                          (* mousedown, touchstart *)
| PointerMove (canvas : option HTMLCanvasElement) (event : Event)
                                          (* mousemove, touchmove *)
| PointerUp                               (* mouseup, mouseleave, touchend *)
| CallClear
| CallUndo
| CallLoadFromHistory (newHistory : list Path)
| ImageLoaded.                            (* [onload] of a pending image *)

Definition step (c : Component) (a : Action) : Component :=
  match a with
  | SetProps p => mkComponent p c.(state)
  | PointerDown canvas event =>
      mkComponent c.(props) (startDrawing c.(props) canvas event c.(state))
  | PointerMove canvas event =>
      mkComponent c.(props) (draw canvas event c.(state))
  | PointerUp => mkComponent c.(props) (finishDrawing c.(state))
  | CallClear => mkComponent c.(props) (clear c.(state))
  | CallUndo => mkComponent c.(props) (undo c.(state))
  | CallLoadFromHistory h => mkComponent c.(props) (loadFromHistory h c.(state))
  | ImageLoaded => mkComponent c.(props) (onload c.(state))
  end.

Definition run (actions : list Action) (c : Component) : Component :=
  fold_left step actions c.

Definition mount (p : Props) : Component := mkComponent p initialState.

(** The samples a list of actions adds to a stroke in progress: the
    coordinates of its pointer moves that resolve, in order. *)
Fixpoint sampled (actions : list Action) : list Point :=
  match actions with
  | [] => []
  | PointerMove canvas event :: rest =>
      match getCoordinates canvas event with
      | Some c => c :: sampled rest
      | None => sampled rest
      end
  | _ :: rest => sampled rest
  end.

Definition is_move_or_restyle (a : Action) : bool :=
  match a with
  | PointerMove _ _ | SetProps _ => true
  | _ => false
  end.


Definition resolves (a : Action) : bool :=
  match a with
  | PointerMove canvas event =>
      match getCoordinates canvas event with Some _ => true | None => false end
  | _ => false
  end.

(** A path long enough to be visible as a stroke. *)
Definition visible (p : Path) : Prop := 2 <= length p.(points).

(** An action that puts only visible paths into History from outside. *)
Definition loads_visible (a : Action) : Prop :=
  match a with
  | CallLoadFromHistory h => Forall visible h
  | _ => True
  end.

(** *** The listeners between renders

    [draw] and [finishDrawing] are [useCallback]s over [isDrawing] and
    [currentPath]: the listener that runs is the one registered by the
    effect of the last render, and the values it tests, and the path
    [finishDrawing] appends, are those of that render ([seen]).  The
    setters act on the state with the updates queued so far ([s]);
    [setCurrentPath(prev => ...)] and [setHistory(prev => ...)] receive
    that state's value. *)
Definition draw_in (seen : State) (canvas : option HTMLCanvasElement)
  (event : Event) (s : State) : State :=
  if negb seen.(isDrawing) then s
  else
    match getCoordinates canvas event, seen.(currentPath) with
    | None, _ => s
    | _, None => s
    | Some coords, Some _ =>
        mkState s.(isDrawing) s.(history)
          (match s.(currentPath) with
           | Some prev =>
               Some (mkPath (prev.(points) ++ [coords]) prev.(color)
                            prev.(strokeWidth))
           | None => None
           end)
    end.

Definition finishDrawing_in (seen s : State) : State :=
  if negb seen.(isDrawing) then s
  else
    match seen.(currentPath) with
    | None => s
    | Some cp =>
        mkState false
          (if (1 <? length cp.(points))%nat then s.(history) ++ [cp]
           else s.(history))
          None
    end.

(** The mounted component: the props of the last render, the state of the
    last render (what the registered listeners close over), and the state
    with the updates queued since. *)
Record Mounted := mkMounted {
  passed : Props;
  rendered : State;
  queued : State
}.

(** An event delivered to the listeners and the handle as they stand. *)
Definition deliver (m : Mounted) (a : Action) : Mounted :=
  match a with
  | SetProps p => mkMounted p m.(rendered) m.(queued)
  | PointerDown canvas event =>
      mkMounted m.(passed) m.(rendered)
                (startDrawing m.(passed) canvas event m.(queued))
  | PointerMove canvas event =>
      mkMounted m.(passed) m.(rendered)
                (draw_in m.(rendered) canvas event m.(queued))
  | PointerUp =>
      mkMounted m.(passed) m.(rendered)
                (finishDrawing_in m.(rendered) m.(queued))
  | CallClear => mkMounted m.(passed) m.(rendered) (clear m.(queued))
  | CallUndo => mkMounted m.(passed) m.(rendered) (undo m.(queued))
  | CallLoadFromHistory h =>
      mkMounted m.(passed) m.(rendered) (loadFromHistory h m.(queued))
  | ImageLoaded => mkMounted m.(passed) m.(rendered) (onload m.(queued))
  end.

(** What happens to the mounted component: an event, or a render with
    its effects, after which the listeners close over the queued state. *)
Inductive Tick :=
| Deliver (a : Action)
| Render.

Definition tick (m : Mounted) (t : Tick) : Mounted :=
  match t with
  | Deliver a => deliver m a
  | Render => mkMounted m.(passed) m.(queued) m.(queued)
  end.

Definition play (ticks : list Tick) (m : Mounted) : Mounted :=
  fold_left tick ticks m.

(** A component that has just rendered. *)
Definition fresh (c : Component) : Mounted :=
  mkMounted c.(props) c.(state) c.(state).

(** The schedule in which a render follows every event. *)
Definition rendered_after_each (actions : list Action) : list Tick :=
  flat_map (fun a => [Deliver a; Render]) actions.

(** ** The application shell (App.tsx, second revision) *)

Record AppState := mkApp { isLoading : bool; error : option string }.

(** The part of [interface CanvasHandles] that [handleBeautify] reads:
    what [getImageData()] answers. *)
Record CanvasHandles := mkHandles { handle_getImageData : Returned string }.

(** The handle the canvas component exposes. *)
Definition handles (toDataURL : Encoder) (js : Engine) (c : Component)
  (canvas : option HTMLCanvasElement) (tempCtx : bool) : CanvasHandles :=
  mkHandles (getImageData toDataURL js c.(props) canvas tempCtx c.(state)).

(** The identifier [beautifyDrawing]: bound to the client of the remote
    service (a call awaited to a value or to a rejection), or unbound, as
    it is while the import of the service module is commented out. *)
Inductive Binding :=
| Unbound
| Bound (service : string -> Returned string).

Record Outcome := mkOutcome {
  app_after : AppState;
  service_calls : list string;      (* images passed to [beautifyDrawing] *)
  loadImage_calls : list string     (* images passed to [loadImage] *)
}.

Definition validationMessage : string :=
  "Canvas is empty. Please draw something first.".

(** The [catch] clause followed by [finally]. *)
Definition caught (e : Thrown) (calls : list string) : Outcome :=
  mkOutcome
    (mkApp false
       (Some (match e with
              | ErrorObject message => message
              | NotAnError => "An unknown error occurred."
              end)))
    calls [].

Definition handleBeautify (js : Engine) (beautifyDrawing : Binding)
  (canvasRef : option CanvasHandles) (app : AppState) : Outcome :=
  match canvasRef with
  | None => mkOutcome app [] []
  | Some h =>
      (* setIsLoading(true); setError(null); try { ... } *)
      match h.(handle_getImageData) with
      | Throws e => caught e []
      | Value imageData =>
          if (String.length imageData <? 100)%nat then
            mkOutcome (mkApp false (Some validationMessage)) [] []
          else
            match beautifyDrawing with
            | Unbound =>
                caught (ErrorObject (js.(referenceErrorMessage) "beautifyDrawing")) []
            | Bound service =>
                match service imageData with
                | Throws e => caught e [imageData]
                | Value newImage =>
                    mkOutcome (mkApp false None) [imageData] [newImage]
                end
            end
      end
  end.

(** A PNG encoding, as a data URI, of a 300 x 150 canvas (the size of a
    canvas element by default) filled with the background colour #1e293b
    and nothing else. *)
Definition blank_canvas_png : string :=
  "data:image/png;base64,iVBORw0KGgoAAAANSUhEUgAAASwAAACWCAYAAABkW7XSAAABjklEQVR42u3UMQ0AAAjAMJTwowH/usAGJD1qYMciqwfggxABMCwAwwIMC8CwAAwLMCwAwwIwLMCwAAwLwLAAwwIwLADDAgwLwLAADAswLADDAjAswLAADAvAsADDAjAsAMMCDAvAsADDEgEwLADDAgwLwLAADAswLADDAjAswLAADAvAsADDAjAsAMMCDAvAsAAMCzAsAMMCMCzAsAAMC8CwAMMCMCwAwwIMC8CwAMMSATAsAMMCDAvAsAAMCzAsAMMCMCzAsAAMC8CwAMMCMCwAwwIMC8CwAAwLMCwAwwIwLMCwAAwLwLAAwwIwLADDAgwLwLAAwxICMCwAwwIMC8CwAAwLMCwAwwIwLMCwAAwLwLAAwwIwLADDAgwLwLAADAswLADDAjAswLAADAvAsADDAjAsAMMCDAvAsADDAjAsAMMCDAvAsAAMCzAsAMMCMCzAsAAMC8CwAMMCMCwAwwIMC8CwAAwLMCwAwwIwLMCwAAwLwLAAwwIwLADDAgwLwLAAwwIwLADDAgwL4K4F6Q1rQTf7tbMAAAAASUVORK5CYII=".

(** ** Example inputs *)

(** Error messages as V8 words them. *)
Definition v8 : Engine :=
  mkEngine "Cannot read properties of undefined (reading 'x')"
           (fun identifier => String.append identifier " is not defined").

(** The client of the remote service when the request fails
    (services/geminiService.ts). *)
Definition failingService : string -> Returned string :=
  fun _ => Throws (ErrorObject
    "Failed to beautify the drawing with AI. Please try again.").

Definition defaultProps : Props := mkProps "#FFFFFF" 5%float "#1e293b".

Definition mountedCanvas : HTMLCanvasElement :=
  mkCanvas 8%float 48%float 300%float 150%float true.

Definition zigzag : Path :=
  mkPath [mkPoint 0%float 0%float; mkPoint 10%float 20%float;
          mkPoint 30%float 40%float; mkPoint 50%float 6%float]
         "#EF4444" 5%float.

Definition tap : Path := mkPath [mkPoint 3%float 4%float] "#FFFFFF" 5%float.

Definition segment : Path :=
  mkPath [mkPoint 3%float 4%float; mkPoint 5%float 6%float] "#3B82F6" 2%float.

(** A press at (10, 10) in surface coordinates, two moves (the second a
    touch with two fingers), a stroke during which the props change, and a
    longer session. *)
Definition press : Action :=
  PointerDown (Some mountedCanvas) (MouseEvent 18%float 58%float).

Definition twoMoves : list Action :=
  [PointerMove (Some mountedCanvas) (MouseEvent 28%float 68%float);
   PointerMove (Some mountedCanvas)
               (TouchEvent [mkTouch 38%float 78%float; mkTouch 1%float 1%float])].

Definition restyledStroke : list Action :=
  [PointerMove (Some mountedCanvas) (MouseEvent 28%float 68%float);
   SetProps (mkProps "#EF4444" 20%float "#1e293b");
   PointerMove (Some mountedCanvas) (MouseEvent 38%float 78%float)].

Definition oneMove : list Action :=
  [PointerMove (Some mountedCanvas) (MouseEvent 28%float 68%float)].

(** A press and two moves, rendered. *)
Definition strokeRendered : Mounted :=
  play (Deliver press :: Render :: map Deliver twoMoves ++ [Render])
       (fresh (mount defaultProps)).

(** One committed stroke and a second stroke just begun. *)
Definition midStroke : Component :=
  run (press :: twoMoves ++ [PointerUp; press]) (mount defaultProps).

Definition session : list Action :=
  press :: twoMoves
  ++ [PointerUp; press; PointerUp; CallLoadFromHistory [segment; zigzag];
      CallUndo; press; CallClear; ImageLoaded;
      CallLoadFromHistory [segment]; press]
  ++ twoMoves ++ [PointerUp].

(** ** Further parts of the sources *)

(** Where a path operation leaves the cursor. *)
Definition endpoint (op : CanvasOp) : option Point :=
  match op with
  | MoveTo px py | LineTo px py | QuadraticCurveTo _ _ px py =>
      Some (mkPoint px py)
  | _ => None
  end.

Definition is_curve (op : CanvasOp) : bool :=
  match op with QuadraticCurveTo _ _ _ _ => true | _ => false end.

(** The operations the smoothing renderer adds to a context, by the
    number of samples: none but the style for an empty path, a dot for one
    sample, a straight segment for two, the smoothing scheme from three. *)
Definition path_commands (path : Path) : list CanvasOp :=
  style_commands path ++
  match path.(points) with
  | [] => []
  | [p] => [BeginPath; MoveTo p.(x) p.(y); LineTo p.(x) p.(y); Stroke]
  | [p; q] => [BeginPath; MoveTo p.(x) p.(y); LineTo q.(x) q.(y); Stroke]
  | pts => [BeginPath] ++ smoothed_commands pts ++ [Stroke]
  end.

(** *** The polyline renderer (the revision of Canvas.tsx with [loadImage])

    The callback of [pathsToDraw.forEach] in [redrawCanvas] and of
    [history.forEach] in [getImageData] of that revision. *)
Definition drawPolyline (path : Path) : Js unit :=
  emit (SetStrokeStyle path.(color)) ;;
  emit (SetLineWidth path.(strokeWidth)) ;;
  emit (SetLineCap "round") ;;
  emit (SetLineJoin "round") ;;
  emit BeginPath ;;
  if (0 <? length path.(points))%nat then
    p0 <- idx path.(points) 0 ;;
    emit (MoveTo p0.(x) p0.(y)) ;;
    forEach path.(points) (fun point => emit (LineTo point.(x) point.(y))) ;;
    emit Stroke
  else ret tt.

Definition redrawCanvas_polyline (p : Props) (cv : HTMLCanvasElement)
  (s : State) : Js unit :=
  emit (SetFillStyle p.(canvasColor)) ;;
  emit (FillRect zero zero cv.(width) cv.(height)) ;;
  let pathsToDraw :=
    match s.(currentPath) with
    | Some cp => s.(history) ++ [cp]
    | None => s.(history)
    end in
  forEach pathsToDraw drawPolyline.

(** What the canvas has received once an image has loaded: [onload] paints, its [setHistory([])] stores a
    new array, so the component renders again with a new [redrawCanvas]
    ([history] is among its dependencies), and the effect that depends on
    [redrawCanvas] runs it on the new state. *)
Definition onload_then_render (img : PendingImage) (p : Props)
  (cv : HTMLCanvasElement) (s : State) : Js unit :=
  onload_paint img cv ;;
  redrawCanvas_polyline p cv (onload s).

(** *** The client of the enhancement service (services/geminiService.ts) *)

(** [s.split(sep)] for a one-character separator. *)
Fixpoint split (sep : ascii) (s : string) : list string :=
  match s with
  | EmptyString => [EmptyString]
  | String c rest =>
      if Ascii.eqb c sep then EmptyString :: split sep rest
      else
        match split sep rest with
        | first :: others => String c first :: others
        | [] => [String c EmptyString]
        end
  end.

(** [None] is [undefined], the element past the end of the split. *)
Definition stripBase64Prefix (base64 : string) : option string :=
  if String.prefix "data:" base64 then nth_error (split "," base64) 1
  else Some base64.

Definition instruction : string :=
  "Redraw this user's sketch. Make it look more polished and artistic, like a clean line drawing or a simple digital painting. Keep the original subject and composition intact, but enhance the quality. The output must be an image.".

(** The argument of [ai.models.generateContent]. *)
Record Request := mkRequest {
  req_model : string;
  req_text : string;
  req_mimeType : string;
  req_data : option string
}.

(** [response.candidates?.[0]?.content?.parts?.[0]], when there is one: a
    part with a truthy [inlineData] (whose [data] may be missing), or any
    other part. *)
Inductive ResponsePart :=
| InlineDataPart (data : option string)
| OtherPart.

Definition failedMessage : string :=
  "Failed to beautify the drawing with AI. Please try again.".

(** The body of the [try] block. *)
Definition beautifyDrawing_try
  (generateContent : Request -> Returned (option ResponsePart))
  (base64ImageData : string) : Returned string :=
  match generateContent
          (mkRequest "gemini-2.5-flash" instruction "image/png"
                     (stripBase64Prefix base64ImageData)) with
  | Throws e => Throws e
  | Value (Some (InlineDataPart data)) =>
      Value (String.append "data:image/png;base64,"
               (match data with Some newBase64 => newBase64
                              | None => "undefined" end))
  | Value _ => Throws (ErrorObject "AI did not return a valid image.")
  end.

Definition beautifyDrawing
  (generateContent : Request -> Returned (option ResponsePart))
  (base64ImageData : string) : Returned string :=
  match beautifyDrawing_try generateContent base64ImageData with
  | Value newImage => Value newImage
  | Throws _ => Throws (ErrorObject failedMessage)
  end.

(** *** The tools of the application shell (App.tsx) *)

Record Tools := mkTools {
  tool_color : string;          (* [color] *)
  tool_strokeWidth : number;    (* [strokeWidth] *)
  isErasing : bool
}.

Definition initialTools : Tools := mkTools "#FFFFFF" 5%float false.

Definition handleColorChange (newColor : string) (t : Tools) : Tools :=
  mkTools newColor t.(tool_strokeWidth) false.

Definition handleEraserSelect (t : Tools) : Tools :=
  mkTools t.(tool_color) t.(tool_strokeWidth) true.

Definition setStrokeWidth (w : number) (t : Tools) : Tools :=
  mkTools t.(tool_color) w t.(isErasing).

(** The props [App] passes to [Canvas]. *)
Definition canvasProps (t : Tools) : Props :=
  mkProps (if t.(isErasing) then "#1e293b" else t.(tool_color))
          t.(tool_strokeWidth) "#1e293b".

Inductive ToolAction :=
| PickColor (c : string)
| SelectEraser
| SetWidth (w : number).

Definition tool_step (t : Tools) (a : ToolAction) : Tools :=
  match a with
  | PickColor c => handleColorChange c t
  | SelectEraser => handleEraserSelect t
  | SetWidth w => setStrokeWidth w t
  end.

(** The colour of the brush after a list of tool actions, read off the
    list: the last colour picked, or the canvas colour if the eraser was
    selected after it, or [current] if the list has neither. *)
Fixpoint last_brush (actions : list ToolAction) (current : string) : string :=
  match actions with
  | [] => current
  | PickColor c :: rest => last_brush rest c
  | SelectEraser :: rest => last_brush rest "#1e293b"
  | SetWidth _ :: rest => last_brush rest current
  end.

(** [handleDownload]: the link that is clicked, when the handle exists. *)
Record Download := mkDownload { href : string; download : string }.

Definition handleDownload (canvasRef : option CanvasHandles)
  : Returned (option Download) :=
  match canvasRef with
  | None => Value None
  | Some h =>
      match h.(handle_getImageData) with
      | Value imageData => Value (Some (mkDownload imageData "drawing.png"))
      | Throws e => Throws e
      end
  end.

(** A pointer action whose coordinate does not resolve. *)
Definition unresolved (a : Action) : bool :=
  match a with
  | PointerDown canvas event | PointerMove canvas event =>
      match getCoordinates canvas event with Some _ => false | None => true end
  | _ => false
  end.

(** Actions that are not calls on the imperative handle or image loads. *)
Definition is_input (a : Action) : bool :=
  match a with
  | SetProps _ | PointerDown _ _ | PointerMove _ _ => true
  | _ => false
  end.

(** A path in progress comes with the drawing flag and holds a sample. *)
Definition stroke_consistent (s : State) : Prop :=
  match currentPath s with
  | Some cp => isDrawing s = true /\ 1 <= length (points cp)
  | None => True
  end.

(** A string without a comma, as every base64 payload is. *)
Fixpoint comma_free (s : string) : bool :=
  match s with
  | EmptyString => true
  | String c rest => negb (Ascii.eqb c ",") && comma_free rest
  end.

(** A service that answers with a fixed image. *)
Definition resolvingService : string -> Returned string :=
  fun _ => Value "data:image/png;base64,iVBORw0KGgo=".

(** ** Renderer lemmas *)

Lemma idx_in_range (pts : list Point) (i : nat) (ctx : Ctx) :
  i < length pts -> idx pts i ctx = Normal (sample pts i) ctx.
Proof.
  intros Hi. unfold idx, sample.
  rewrite (nth_error_nth' pts (mkPoint 0%float 0%float) Hi). reflexivity.
Qed.

Lemma smoothing_loop_trace (pts : list Point) (i : nat) (ctx : Ctx) :
  smoothing_loop pts i ctx =
  Normal tt (ctx ++ map (interior_curve pts) (seq i (length pts - 2 - i))).
Proof.
  revert ctx. funelim (smoothing_loop pts i); intros ctx.
  - unfold bind.
    rewrite (idx_in_range pts i) by lia.
    rewrite (idx_in_range pts (i + 1)) by lia.
    cbn [emit].
    match goal with
    | IH : Point -> Point -> unit -> Ctx -> _ |- _ =>
        rewrite (IH (sample pts i) (sample pts i) tt ctx)
    end.
    replace (length pts - 2 - i) with (S (length pts - 2 - (i + 1))) by lia.
    cbn [seq map]. rewrite <- app_assoc. cbn [app].
    replace (S i) with (i + 1) by lia. reflexivity.
  - replace (length pts - 2 - i) with 0 by lia.
    cbn [seq map]. rewrite app_nil_r. reflexivity.
Qed.

(** The renderer on a path of three or more samples: it never throws, and
    the operations it adds to the context are the style assignments,
    [beginPath], the smoothing scheme and [stroke]. *)
Lemma drawSmoothedPath_long (path : Path) (ctx : Ctx) :
  3 <= length path.(points) ->
  drawSmoothedPath path ctx =
  Normal tt (ctx ++ style_commands path ++ [BeginPath]
                 ++ smoothed_commands path.(points) ++ [Stroke]).
Proof.
  intros Hlen. unfold drawSmoothedPath, bind. cbn [emit].
  destruct (Nat.eqb_spec (length (points path)) 0) as [E|_]; [lia|].
  rewrite idx_in_range by lia.
  destruct (Nat.ltb_spec (length (points path)) 3) as [E|_]; [lia|].
  rewrite smoothing_loop_trace.
  rewrite !idx_in_range by lia.
  unfold emit, smoothed_commands, style_commands, curve.
  replace (length (points path) - 2 - 1) with (length (points path) - 3) by lia.
  repeat (rewrite <- app_assoc; cbn [app]). reflexivity.
Qed.


(** The renderer completes normally on every path, whatever its length. *)
Lemma drawSmoothedPath_total (path : Path) (ctx : Ctx) :
  exists ctx', drawSmoothedPath path ctx = Normal tt ctx'.
Proof.
  destruct (le_lt_dec 3 (length path.(points))) as [Hlong|Hshort].
  - eexists. apply drawSmoothedPath_long. exact Hlong.
  - unfold drawSmoothedPath, bind, emit, idx, ret.
    destruct path as [pts c w]. cbn [points color strokeWidth] in *.
    destruct pts as [|p0 [|p1 [|p2 rest]]]; cbn in *;
      try (eexists; reflexivity); lia.
Qed.

Lemma forEach_draw_total (paths : list Path) (ctx : Ctx) :
  exists ctx', forEach paths drawSmoothedPath ctx = Normal tt ctx'.
Proof.
  revert ctx. induction paths as [|p rest IH]; intros ctx; cbn [forEach].
  - eexists. reflexivity.
  - unfold bind. destruct (drawSmoothedPath_total p ctx) as [ctx1 ->]. apply IH.
Qed.

(** *** Four samples *)
Lemma drawSmoothedPath_four (P0 P1 P2 P3 : Point) (c : string) (w : number)
  (ctx : Ctx) :
  drawSmoothedPath (mkPath [P0; P1; P2; P3] c w) ctx =
  Normal tt (ctx ++ style_commands (mkPath [P0; P1; P2; P3] c w)
                 ++ [BeginPath; MoveTo P0.(x) P0.(y);
                     curve P1 (midpoint P1 P2); curve P2 P3; Stroke]).
Proof.
  rewrite drawSmoothedPath_long by (cbn; lia). reflexivity.
Qed.

(** C1. For every path of three or more samples the renderer issues, after
    the style assignments and [beginPath]: a move to the first sample; for
    each index [i] from 1 to [length - 3] inclusive one quadratic curve
    with sample [i] as control point and the midpoint of samples [i] and
    [i + 1] as endpoint; one last quadratic curve with the second-to-last
    sample as control point and the last sample as endpoint; and [stroke].
    For four samples [P0; P1; P2; P3] the curve therefore starts at [P0],
    has its one interior joint at the midpoint of [P1] and [P2], ends at
    [P3], and uses [P1] then [P2] as control points. *)
Theorem drawSmoothedPath_smoothing (path : Path) (ctx : Ctx) :
  3 <= length path.(points) ->
  drawSmoothedPath path ctx =
    Normal tt (ctx ++ style_commands path ++ [BeginPath]
                   ++ smoothed_commands path.(points) ++ [Stroke])
  /\ forall P0 P1 P2 P3 : Point,
       path.(points) = [P0; P1; P2; P3] ->
       drawSmoothedPath path ctx =
         Normal tt (ctx ++ style_commands path
                        ++ [BeginPath; MoveTo P0.(x) P0.(y);
                            curve P1 (midpoint P1 P2); curve P2 P3; Stroke]).
Proof.
  intros Hlen. split.
  - apply drawSmoothedPath_long. exact Hlen.
  - intros P0 P1 P2 P3 Hpts. destruct path as [pts c w].
    cbn [points] in Hpts. subst pts. apply drawSmoothedPath_four.
Qed.

Lemma drawSmoothedPath_smoothing_witness :
  drawSmoothedPath zigzag [] =
  Normal tt [SetStrokeStyle "#EF4444"; SetLineWidth 5%float;
             SetLineCap "round"; SetLineJoin "round"; BeginPath;
             MoveTo 0%float 0%float;
             QuadraticCurveTo 10%float 20%float 20%float 30%float;
             QuadraticCurveTo 30%float 40%float 50%float 6%float;
             Stroke].
Proof.
  exact (proj1 (drawSmoothedPath_smoothing zigzag []
                  ltac:(vm_compute; lia))).
Defined.

(** ** Controller lemmas *)

Lemma run_app (a b : list Action) (c : Component) :
  run (a ++ b) c = run b (run a c).
Proof. unfold run. apply fold_left_app. Qed.

Lemma slice_0_minus1_removelast {A} (a : list A) :
  slice_0_minus1 a = removelast a.
Proof.
  unfold slice_0_minus1. rewrite removelast_firstn_len.
  rewrite Nat.sub_1_r. reflexivity.
Qed.

Lemma slice_0_minus1_snoc {A} (a : list A) (e : A) :
  slice_0_minus1 (a ++ [e]) = a.
Proof. rewrite slice_0_minus1_removelast. apply removelast_last. Qed.

(** A pointer move that resolves, during a stroke, appends its coordinate
    and nothing else. *)
Lemma draw_appends (canvas : option HTMLCanvasElement) (event : Event)
  (s : State) (p : Path) (pt : Point) :
  isDrawing s = true ->
  currentPath s = Some p ->
  getCoordinates canvas event = Some pt ->
  draw canvas event s =
  mkState true (history s)
          (Some (mkPath (points p ++ [pt]) (color p) (strokeWidth p))).
Proof.
  intros Hd Hp Hc. unfold draw. rewrite Hd, Hc, Hp. reflexivity.
Qed.

(** A pointer move that does not resolve changes nothing. *)
Lemma draw_unresolved (canvas : option HTMLCanvasElement) (event : Event)
  (s : State) :
  getCoordinates canvas event = None -> draw canvas event s = s.
Proof.
  intros Hc. unfold draw. rewrite Hc. destruct (negb (isDrawing s)); reflexivity.
Qed.



(** Moves and style changes during a stroke: the path in progress grows by
    the sampled coordinates and keeps its colour and width; History and
    the drawing flag stay. *)
Lemma stroke_continues (mid : list Action) :
  forall (c : Component) (p : Path),
    forallb is_move_or_restyle mid = true ->
    isDrawing (state c) = true ->
    currentPath (state c) = Some p ->
    state (run mid c) =
    mkState true (history (state c))
            (Some (mkPath (points p ++ sampled mid) (color p) (strokeWidth p))).
Proof.
  induction mid as [|a rest IH]; intros c p Hall Hd Hp.
  - cbn [run fold_left sampled]. rewrite app_nil_r.
    destruct c as [pr [d h cp]], p as [pts col w]. cbn in *. congruence.
  - cbn [forallb] in Hall. apply andb_prop in Hall. destruct Hall as [Ha Hrest].
    change (run (a :: rest) c) with (run rest (step c a)).
    destruct a; try discriminate Ha.
    + (* SetProps *)
      rewrite (IH _ p Hrest); cbn [step state]; auto.
    + (* PointerMove *)
      cbn [step sampled].
      destruct (getCoordinates canvas event) as [pt|] eqn:Hc.
      * rewrite (IH _ (mkPath (points p ++ [pt]) (color p) (strokeWidth p)) Hrest);
          cbn [state]; rewrite (draw_appends _ _ _ _ _ Hd Hp Hc); try reflexivity.
        cbn [history points color strokeWidth].
        rewrite <- app_assoc. reflexivity.
      * rewrite (IH _ p Hrest); cbn [state];
          rewrite (draw_unresolved _ _ _ Hc); auto.
Qed.

Lemma startDrawing_resolved (p : Props) (canvas : option HTMLCanvasElement)
  (event : Event) (s : State) (pt : Point) :
  getCoordinates canvas event = Some pt ->
  startDrawing p canvas event s =
  mkState true (history s) (Some (mkPath [pt] (strokeColor p) (brushWidth p))).
Proof. intros Hc. unfold startDrawing. rewrite Hc. reflexivity. Qed.

(** The stroke in progress after a pointer-down that resolves, followed by
    moves and style changes. *)
Lemma stroke_in_progress (c : Component) (canvas : option HTMLCanvasElement)
  (event : Event) (pt : Point) (mid : list Action) :
  getCoordinates canvas event = Some pt ->
  forallb is_move_or_restyle mid = true ->
  state (run mid (step c (PointerDown canvas event))) =
  mkState true (history (state c))
          (Some (mkPath (pt :: sampled mid)
                        (strokeColor (props c)) (brushWidth (props c)))).
Proof.
  intros Hc Hall.
  rewrite (stroke_continues mid _
             (mkPath [pt] (strokeColor (props c)) (brushWidth (props c))) Hall);
    cbn [step state]; rewrite (startDrawing_resolved _ _ _ _ _ Hc); reflexivity.
Qed.

Lemma resolves_is_move (a : Action) :
  resolves a = true -> is_move_or_restyle a = true.
Proof. destruct a; cbn; congruence. Qed.

Lemma resolved_moves_restyle (moves : list Action) :
  forallb resolves moves = true -> forallb is_move_or_restyle moves = true.
Proof.
  rewrite !forallb_forall. intros H a Ha. apply resolves_is_move. auto.
Qed.

Lemma sampled_length (moves : list Action) :
  forallb resolves moves = true -> length (sampled moves) = length moves.
Proof.
  induction moves as [|a rest IH]; [reflexivity|].
  cbn [forallb]. intros H. apply andb_prop in H. destruct H as [Ha Hrest].
  destruct a; try discriminate Ha. cbn [resolves] in Ha. cbn [sampled].
  destruct (getCoordinates canvas event); [|discriminate Ha].
  cbn [length]. rewrite (IH Hrest). reflexivity.
Qed.

(** ** Example runs *)

Example press_two_moves_release :
  state (run (press :: twoMoves ++ [PointerUp]) (mount defaultProps)) =
  mkState false
    [mkPath [mkPoint 10%float 10%float; mkPoint 20%float 20%float;
             mkPoint 30%float 30%float] "#FFFFFF" 5%float]
    None.
Proof. reflexivity. Qed.

Example press_release :
  state (run [press; PointerUp] (mount defaultProps)) = initialState.
Proof. reflexivity. Qed.

(** ** The stroke life cycle *)

(** The stroke life cycle when the component renders after every event:
    from the idle state, a pointer-down that resolves a coordinate, [N]
    pointer moves that each resolve one, and a pointer-up leave the path
    in progress null; for [N = 0] History is unchanged; for [N >= 1]
    History has grown at its end by exactly one path, whose points are the
    pointer-down coordinate followed by the [N] move coordinates in order,
    [N + 1] of them. *)
Lemma stroke_commit (c : Component) (canvas : option HTMLCanvasElement)
  (event : Event) (pt : Point) (moves : list Action) :
  isDrawing (state c) = false ->
  currentPath (state c) = None ->
  getCoordinates canvas event = Some pt ->
  forallb resolves moves = true ->
  let c' := run (PointerDown canvas event :: moves ++ [PointerUp]) c in
  currentPath (state c') = None
  /\ (length moves = 0 -> history (state c') = history (state c))
  /\ (1 <= length moves ->
      history (state c') =
        history (state c)
        ++ [mkPath (pt :: sampled moves)
                   (strokeColor (props c)) (brushWidth (props c))]
      /\ length (pt :: sampled moves) = length moves + 1).
Proof.
  intros _ _ Hc Hmoves c'.
  assert (Hstate : state c' =
            finishDrawing (state (run moves (step c (PointerDown canvas event))))).
  { subst c'.
    change (run (PointerDown canvas event :: moves ++ [PointerUp]) c)
      with (run (moves ++ [PointerUp]) (step c (PointerDown canvas event))).
    rewrite run_app. reflexivity. }
  rewrite (stroke_in_progress c canvas event pt moves Hc
             (resolved_moves_restyle moves Hmoves)) in Hstate.
  unfold finishDrawing in Hstate.
  cbn [isDrawing negb currentPath history points length] in Hstate.
  rewrite (sampled_length moves Hmoves) in Hstate.
  rewrite Hstate. split; [reflexivity|]. split.
  - intros H0. rewrite H0. reflexivity.
  - intros H1. split.
    + destruct (Nat.ltb_spec 1 (S (length moves))) as [_|E]; [reflexivity|lia].
    + cbn [length]. rewrite (sampled_length moves Hmoves). lia.
Qed.

(** C9. The colour and width of a stroke are those of the props at its
    pointer-down: after any pointer moves and any changes of the props in
    between, the path in progress still carries them, and its points are
    the pointer-down coordinate followed by the sampled move coordinates;
    one more pointer move that resolves appends exactly its one point and
    leaves colour and width as they were; and when the stroke is committed
    it enters History with that colour and width. *)
Theorem style_fixed_for_stroke (c : Component)
  (canvas : option HTMLCanvasElement) (event : Event) (pt : Point)
  (mid : list Action) :
  getCoordinates canvas event = Some pt ->
  forallb is_move_or_restyle mid = true ->
  let c1 := run mid (step c (PointerDown canvas event)) in
  let stroke pts :=
    mkPath pts (strokeColor (props c)) (brushWidth (props c)) in
  currentPath (state c1) = Some (stroke (pt :: sampled mid))
  /\ (forall (canvas' : option HTMLCanvasElement) (event' : Event)
             (pt' : Point),
        getCoordinates canvas' event' = Some pt' ->
        currentPath (state (step c1 (PointerMove canvas' event'))) =
          Some (stroke ((pt :: sampled mid) ++ [pt'])))
  /\ (sampled mid <> [] ->
      history (state (step c1 PointerUp)) =
        history (state c) ++ [stroke (pt :: sampled mid)]).
Proof.
  intros Hc Hall c1 stroke.
  pose proof (stroke_in_progress c canvas event pt mid Hc Hall) as Hs.
  fold c1 in Hs. fold (stroke (pt :: sampled mid)) in Hs.
  split; [|split].
  - rewrite Hs. reflexivity.
  - intros canvas' event' pt' Hc'. cbn [step state].
    rewrite (draw_appends canvas' event' (state c1)
               (stroke (pt :: sampled mid)) pt');
      rewrite ?Hs; auto.
  - intros Hne. cbn [step state]. rewrite Hs. unfold finishDrawing.
    cbn [isDrawing negb currentPath history].
    destruct (sampled mid) as [|q rest]; [contradiction|]. reflexivity.
Qed.

Lemma style_fixed_for_stroke_witness :
  currentPath (state (run (press :: restyledStroke) (mount defaultProps))) =
  Some (mkPath [mkPoint 10%float 10%float; mkPoint 20%float 20%float;
                mkPoint 30%float 30%float] "#FFFFFF" 5%float).
Proof.
  exact (proj1 (style_fixed_for_stroke (mount defaultProps)
                  (Some mountedCanvas) (MouseEvent 18%float 58%float)
                  (mkPoint 10%float 10%float) restyledStroke
                  eq_refl eq_refl)).
Defined.

(** ** The imperative handle *)

(** C3, as the claim states it, fails in its last part: an [undo()]
    during a stroke does not cancel the stroke in progress instead of
    undoing the prior one, it does both.  Here History holds one committed
    stroke and a second stroke has begun; after [undo()] the path in
    progress is null and the committed stroke is gone as well. *)
Lemma undo_during_stroke_removes_committed_path :
  isDrawing (state midStroke) = true
  /\ currentPath (state midStroke) =
       Some (mkPath [mkPoint 10%float 10%float] "#FFFFFF" 5%float)
  /\ length (history (state midStroke)) = 1
  /\ currentPath (undo (state midStroke)) = None
  /\ history (undo (state midStroke)) = []
  /\ history (undo (state midStroke)) <> history (state midStroke).
Proof. repeat split. vm_compute. discriminate. Qed.

(** C3, amended. [undo()] on a History [h ++ [p]] leaves exactly [h], the
    paths before the last one, each as it was; on an empty History it
    leaves the empty History (the function is total: no error); in every
    case the path in progress is null afterwards.  During a stroke it does
    both: the path in progress is dropped and History loses its last
    committed path. *)
Theorem undo_spec (s : State) :
  currentPath (undo s) = None
  /\ history (undo s) = removelast (history s)
  /\ (history s = [] -> history (undo s) = [])
  /\ (forall (h : list Path) (p : Path),
        history s = h ++ [p] -> history (undo s) = h)
  /\ isDrawing (undo s) = isDrawing s
  /\ (forall (h : list Path) (p cp : Path),
        undo (mkState true (h ++ [p]) (Some cp)) = mkState true h None).
Proof.
  unfold undo. cbn [currentPath history isDrawing].
  repeat split.
  - apply slice_0_minus1_removelast.
  - intros ->. reflexivity.
  - intros h p ->. apply slice_0_minus1_snoc.
  - intros h p cp. rewrite slice_0_minus1_snoc. reflexivity.
Qed.

(** C4. [clear()] leaves an empty History and a null path in progress,
    whatever the state before. *)
Theorem clear_spec (s : State) :
  history (clear s) = [] /\ currentPath (clear s) = None.
Proof. split; reflexivity. Qed.

(** X24. [loadImage] starts a load exactly when the canvas is mounted and
    yields a 2D context; otherwise it returns without creating an image,
    so no [onload] will follow and the state is never cleared.  A load
    that starts carries the URL given and the canvas colour of the props
    at the time of the call. *)
Lemma loadImage_pending (p : Props) (canvas : option HTMLCanvasElement)
  (imageUrl : string) (img : PendingImage) :
  loadImage p canvas imageUrl = Some img <->
  (exists cv, canvas = Some cv /\ context2d cv = true)
  /\ img = mkPending imageUrl (canvasColor p).
Proof.
  unfold loadImage. split.
  - destruct canvas as [cv|]; [|discriminate].
    destruct (context2d cv) eqn:E; cbn [negb]; [|discriminate].
    intros H. inversion H. split; [exists cv; auto|reflexivity].
  - intros [(cv & -> & E) ->]. rewrite E. reflexivity.
Qed.

(** What [onload] paints: the background, then the image scaled to the
    canvas. *)
Lemma onload_paint_trace (img : PendingImage) (cv : HTMLCanvasElement)
  (ctx : Ctx) :
  onload_paint img cv ctx =
  Normal tt (ctx ++ [SetFillStyle (img_fill img);
                     FillRect zero zero (width cv) (height cv);
                     DrawImage (img_src img) zero zero (width cv) (height cv)]).
Proof.
  unfold onload_paint, bind, emit.
  repeat (rewrite <- app_assoc; cbn [app]). reflexivity.
Qed.

(** Undoing on an empty History, any number of times, keeps it empty. *)
Lemma undo_on_empty (n : nat) :
  forall c : Component,
    history (state c) = [] ->
    history (state (run (repeat CallUndo n) c)) = [].
Proof.
  induction n as [|n IH]; intros c Hc; cbn [repeat].
  - exact Hc.
  - change (run (CallUndo :: repeat CallUndo n) c)
      with (run (repeat CallUndo n) (step c CallUndo)).
    apply IH. cbn [step state undo history]. rewrite Hc. reflexivity.
Qed.

(** C8. Once the image of [loadImage] has loaded, History is empty and the
    path in progress is null; an [undo()] after that, and any number of
    them, leaves History as it is. *)
Theorem image_loaded_spec (c : Component) :
  history (state (step c ImageLoaded)) = []
  /\ currentPath (state (step c ImageLoaded)) = None
  /\ history (undo (state (step c ImageLoaded))) =
       history (state (step c ImageLoaded))
  /\ forall n : nat,
       history (state (run (repeat CallUndo n) (step c ImageLoaded))) = [].
Proof.
  repeat split.
  intros n. apply undo_on_empty. reflexivity.
Qed.

(** [getImageData] returns a value on every state: it never throws. *)
Lemma getImageData_returns (toDataURL : Encoder) (js : Engine) (p : Props)
  (canvas : option HTMLCanvasElement) (tempCtx : bool) (s : State) :
  exists url, getImageData toDataURL js p canvas tempCtx s = Value url.
Proof.
  unfold getImageData. destruct canvas as [cv|]; [|eexists; reflexivity].
  destruct (negb tempCtx); [eexists; reflexivity|].
  unfold exportDrawing, bind, emit.
  destruct (forEach_draw_total (history s)
              ([] ++ [SetFillStyle (canvasColor p)]
                  ++ [FillRect zero zero (width cv) (height cv)])) as [ctx' E].
  cbn [app] in E |- *. rewrite E. eexists. reflexivity.
Qed.

(** The export of a canvas with an empty History is the encoding of the
    background fill alone. *)
Lemma getImageData_blank (toDataURL : Encoder) (js : Engine) (p : Props)
  (cv : HTMLCanvasElement) (s : State) :
  history s = [] ->
  getImageData toDataURL js p (Some cv) true s =
  Value (toDataURL (width cv) (height cv)
           [SetFillStyle (canvasColor p);
            FillRect zero zero (width cv) (height cv)]).
Proof.
  intros H. unfold getImageData, exportDrawing. rewrite H. reflexivity.
Qed.

(** The screen, unlike the export, shows the path in progress. *)
Example redraw_shows_stroke_in_progress :
  redrawCanvas defaultProps (Some mountedCanvas)
    (state (step (mount defaultProps) press)) []
  <> redrawCanvas defaultProps (Some mountedCanvas)
       (state (mount defaultProps)) [].
Proof. vm_compute. discriminate. Qed.

(** ** Short paths and History *)

Lemma Forall_prefix {A} (P : A -> Prop) (n : nat) (a : list A) :
  Forall P a -> Forall P (firstn n a).
Proof.
  intros H. revert n. induction H as [|e rest He Hrest IH]; intros n.
  - rewrite firstn_nil. constructor.
  - destruct n as [|n]; cbn [firstn]; constructor; auto.
Qed.

(** The commit transition appends the path in progress only when it has
    more than one point. *)
Lemma finishDrawing_history (s : State) :
  history (finishDrawing s) = history s
  \/ exists cp, currentPath s = Some cp /\ visible cp
                /\ history (finishDrawing s) = history s ++ [cp].
Proof.
  unfold finishDrawing. destruct (negb (isDrawing s)); [left; reflexivity|].
  destruct (currentPath s) as [cp|]; [|left; reflexivity].
  cbn [history].
  destruct (Nat.ltb_spec 1 (length (points cp))) as [Hlong|Hshort].
  - right. exists cp. repeat split. exact Hlong.
  - left. reflexivity.
Qed.

Lemma step_keeps_visible (c : Component) (a : Action) :
  loads_visible a ->
  Forall visible (history (state c)) ->
  Forall visible (history (state (step c a))).
Proof.
  intros Ha Hinv. destruct a; cbn [step state].
  - exact Hinv.
  - unfold startDrawing. destruct (getCoordinates canvas event); exact Hinv.
  - unfold draw. destruct (negb (isDrawing (state c))); [exact Hinv|].
    destruct (getCoordinates canvas event), (currentPath (state c)); exact Hinv.
  - destruct (finishDrawing_history (state c)) as [E|(cp & _ & Hcp & E)];
      rewrite E; [exact Hinv|].
    apply Forall_app. split; [exact Hinv|]. constructor; [exact Hcp|constructor].
  - constructor.
  - cbn [undo history]. apply Forall_prefix. exact Hinv.
  - exact Ha.
  - constructor.
Qed.

Lemma run_keeps_visible (actions : list Action) :
  forall c : Component,
    Forall loads_visible actions ->
    Forall visible (history (state c)) ->
    Forall visible (history (state (run actions c))).
Proof.
  induction actions as [|a rest IH]; intros c Hacts Hinv.
  - exact Hinv.
  - change (run (a :: rest) c) with (run rest (step c a)).
    inversion Hacts as [|a' rest' Ha Hrest]; subst.
    apply IH; [exact Hrest|]. apply step_keeps_visible; assumption.
Qed.

(** C6, as the claim states it, fails: [loadFromHistory] stores the paths
    it is given as they are, so a single-point path reaches History. *)
Lemma history_can_hold_single_point_path :
  history (state (run [CallLoadFromHistory [tap]] (mount defaultProps))) = [tap]
  /\ length (points tap) = 1
  /\ ~ Forall visible
        (history (state (run [CallLoadFromHistory [tap]] (mount defaultProps)))).
Proof.
  split; [reflexivity|]. split; [reflexivity|].
  intros H. cbn in H. inversion H as [|e rest Hv _]; subst.
  unfold visible in Hv. cbn in Hv. lia.
Qed.

(** C6, amended. In every state reached from the mounted component by
    pointer events, changes of props, [clear()], [undo()], the completion
    of an image load, and calls of [loadFromHistory] whose argument holds
    only paths of two or more points, no path of History has fewer than
    two points; in particular the commit transition leaves History as it
    is when the path in progress has a single point. *)
Theorem history_paths_visible (p : Props) (actions : list Action) :
  Forall loads_visible actions ->
  Forall visible (history (state (run actions (mount p))))
  /\ forall (s : State) (cp : Path),
       currentPath s = Some cp ->
       length (points cp) < 2 ->
       history (finishDrawing s) = history s.
Proof.
  intros Hacts. split.
  - apply run_keeps_visible; [exact Hacts|]. constructor.
  - intros s cp Hcp Hshort.
    destruct (finishDrawing_history s) as [E|(cp' & Hcp' & Hv & _)];
      [exact E|].
    rewrite Hcp in Hcp'. inversion Hcp'; subst cp'.
    unfold visible in Hv. lia.
Qed.

Lemma history_paths_visible_witness :
  Forall visible (history (state (run session (mount defaultProps)))).
Proof.
  refine (proj1 (history_paths_visible defaultProps session _)).
  unfold session, loads_visible, visible, press, twoMoves.
  repeat (constructor; cbn; try lia).
Defined.

Example session_history :
  history (state (run session (mount defaultProps))) =
  [segment;
   mkPath [mkPoint 10%float 10%float; mkPoint 20%float 20%float;
           mkPoint 30%float 30%float] "#FFFFFF" 5%float].
Proof. reflexivity. Qed.

(** ** A drawing flag without a path in progress *)

Lemma clear_during_stroke (s : State) :
  isDrawing s = true ->
  isDrawing (clear s) = true /\ currentPath (clear s) = None.
Proof. intros H. split; [exact H|reflexivity]. Qed.

Lemma undo_during_stroke (s : State) :
  isDrawing s = true ->
  isDrawing (undo s) = true /\ currentPath (undo s) = None.
Proof. intros H. split; [exact H|reflexivity]. Qed.




(** ** Enhancement of the drawing *)

(** X23. The guard of [handleBeautify] is on the length of the export
    alone: an export shorter than 100 characters (the empty string of an
    unmounted canvas, for one) is refused with the validation message, the
    loading flag is cleared, and neither [beautifyDrawing] nor [loadImage]
    is called. *)
Lemma handleBeautify_short_export (js : Engine) (beautifyDrawing : Binding)
  (h : CanvasHandles) (app : AppState) (imageData : string) :
  handle_getImageData h = Value imageData ->
  String.length imageData < 100 ->
  handleBeautify js beautifyDrawing (Some h) app =
  mkOutcome (mkApp false (Some validationMessage)) [] [].
Proof.
  intros Hh Hlen. unfold handleBeautify. rewrite Hh.
  destruct (Nat.ltb_spec (String.length imageData) 100) as [_|E];
    [reflexivity|lia].
Qed.

(** An unmounted canvas exports the empty string, which the guard refuses. *)
Lemma handleBeautify_unmounted_canvas (toDataURL : Encoder) (js : Engine)
  (beautifyDrawing : Binding) (c : Component) (tempCtx : bool)
  (app : AppState) :
  handleBeautify js beautifyDrawing
    (Some (handles toDataURL js c None tempCtx)) app =
  mkOutcome (mkApp false (Some validationMessage)) [] [].
Proof. reflexivity. Qed.

(** An export of 100 characters or more passes the guard, and the call of
    [beautifyDrawing] is reached. *)
Lemma handleBeautify_guard_passed (js : Engine) (beautifyDrawing : Binding)
  (h : CanvasHandles) (app : AppState) (imageData : string) :
  handle_getImageData h = Value imageData ->
  100 <= String.length imageData ->
  handleBeautify js beautifyDrawing (Some h) app =
  match beautifyDrawing with
  | Unbound =>
      caught (ErrorObject (referenceErrorMessage js "beautifyDrawing")) []
  | Bound service =>
      match service imageData with
      | Throws e => caught e [imageData]
      | Value newImage => mkOutcome (mkApp false None) [imageData] [newImage]
      end
  end.
Proof.
  intros Hh Hlen. unfold handleBeautify. rewrite Hh.
  destruct (Nat.ltb_spec (String.length imageData) 100) as [E|_]; [lia|].
  destruct beautifyDrawing; reflexivity.
Qed.

(** C7 (what the code does). An export of 100 characters or more passes
    the guard, whatever it depicts: the validation message is not the
    outcome, and [beautifyDrawing] is called with the export.  With the
    service bound, the export is sent to it; with the identifier unbound,
    the ReferenceError of the call is what the user is shown.  The export
    of a blank canvas is a PNG data URI, which is that long. *)
Theorem handleBeautify_long_export (js : Engine) (beautifyDrawing : Binding)
  (h : CanvasHandles) (app : AppState) (imageData : string) :
  handle_getImageData h = Value imageData ->
  100 <= String.length imageData ->
  match beautifyDrawing with
  | Unbound =>
      handleBeautify js beautifyDrawing (Some h) app =
      mkOutcome
        (mkApp false (Some (referenceErrorMessage js "beautifyDrawing"))) [] []
  | Bound service =>
      service_calls (handleBeautify js beautifyDrawing (Some h) app) =
        [imageData]
      /\ error (app_after (handleBeautify js beautifyDrawing (Some h) app)) =
           match service imageData with
           | Value _ => None
           | Throws (ErrorObject message) => Some message
           | Throws NotAnError => Some "An unknown error occurred."
           end
  end.
Proof.
  intros Hh Hlen.
  rewrite (handleBeautify_guard_passed js beautifyDrawing h app imageData Hh Hlen).
  destruct beautifyDrawing as [|service]; [reflexivity|].
  destruct (service imageData) as [newImage|[message|]]; split; reflexivity.
Qed.

(** The blank 300 x 150 canvas: its export is sent to the service. *)
Lemma handleBeautify_long_export_witness :
  service_calls
    (handleBeautify v8 (Bound failingService)
       (Some (mkHandles (Value blank_canvas_png))) (mkApp false None)) =
    [blank_canvas_png]
  /\ error (app_after
       (handleBeautify v8 (Bound failingService)
          (Some (mkHandles (Value blank_canvas_png))) (mkApp false None))) =
     Some "Failed to beautify the drawing with AI. Please try again.".
Proof.
  exact (handleBeautify_long_export v8 (Bound failingService)
           (mkHandles (Value blank_canvas_png)) (mkApp false None)
           blank_canvas_png eq_refl ltac:(vm_compute; lia)).
Defined.

(** The same canvas with [beautifyDrawing] unbound, as in App.tsx while
    the import is commented out. *)
Example handleBeautify_blank_canvas_unbound :
  handleBeautify v8 Unbound
    (Some (mkHandles (Value blank_canvas_png))) (mkApp false None) =
  mkOutcome (mkApp false (Some "beautifyDrawing is not defined")) [] []
  /\ Some "beautifyDrawing is not defined" <> Some validationMessage.
Proof. split; [vm_compute; reflexivity|discriminate]. Qed.

(** A canvas with nothing drawn passes the guard as soon as the encoding
    of its background fill has 100 characters or more. *)
Lemma handleBeautify_blank_canvas (toDataURL : Encoder) (js : Engine)
  (service : string -> Returned string) (c : Component)
  (cv : HTMLCanvasElement) (app : AppState) :
  history (state c) = [] ->
  100 <= String.length
           (toDataURL (width cv) (height cv)
              [SetFillStyle (canvasColor (props c));
               FillRect zero zero (width cv) (height cv)]) ->
  service_calls
    (handleBeautify js (Bound service)
       (Some (handles toDataURL js c (Some cv) true)) app) =
  [toDataURL (width cv) (height cv)
     [SetFillStyle (canvasColor (props c));
      FillRect zero zero (width cv) (height cv)]].
Proof.
  intros Hh Hlen.
  pose proof (getImageData_blank toDataURL js (props c) cv (state c) Hh) as Hexp.
  rewrite (handleBeautify_guard_passed js (Bound service)
             (handles toDataURL js c (Some cv) true) app _ Hexp Hlen).
  destruct (service _); reflexivity.
Qed.

(** ** The renderers on every path *)

Lemma forEach_app {A} (a b : list A) (f : A -> Js unit) (ctx : Ctx) :
  forEach (a ++ b) f ctx = (forEach a f ;; forEach b f) ctx.
Proof.
  revert ctx. induction a as [|e rest IH]; intros ctx; cbn [app forEach].
  - reflexivity.
  - unfold bind in *. destruct (f e ctx) as [[] ctx1|ctx1]; [|reflexivity].
    apply IH.
Qed.

Lemma forEach_emit {A} (a : list A) (op : A -> CanvasOp) (ctx : Ctx) :
  forEach a (fun e => emit (op e)) ctx = Normal tt (ctx ++ map op a).
Proof.
  revert ctx. induction a as [|e rest IH]; intros ctx; cbn [forEach map].
  - rewrite app_nil_r. reflexivity.
  - unfold bind. cbn [emit]. unfold emit at 1.
    rewrite IH. rewrite <- app_assoc. reflexivity.
Qed.

Lemma drawSmoothedPath_trace (path : Path) (ctx : Ctx) :
  drawSmoothedPath path ctx = Normal tt (ctx ++ path_commands path).
Proof.
  destruct (le_lt_dec 3 (length path.(points))) as [Hlong|Hshort].
  - rewrite (drawSmoothedPath_long path ctx Hlong). unfold path_commands.
    destruct path as [pts c w]. cbn [points] in *.
    destruct pts as [|p0 [|p1 [|p2 rest]]]; cbn [length] in Hlong; try lia.
    reflexivity.
  - unfold drawSmoothedPath, path_commands, style_commands, bind, emit, idx, ret.
    destruct path as [pts c w]. cbn [points color strokeWidth] in *.
    destruct pts as [|p0 [|p1 [|p2 rest]]]; cbn in *; try lia;
      repeat (rewrite <- app_assoc; cbn [app]); reflexivity.
Qed.

Lemma forEach_draw_trace (paths : list Path) (ctx : Ctx) :
  forEach paths drawSmoothedPath ctx =
  Normal tt (ctx ++ flat_map path_commands paths).
Proof.
  revert ctx. induction paths as [|p rest IH]; intros ctx;
    cbn [forEach flat_map].
  - rewrite app_nil_r. reflexivity.
  - unfold bind. rewrite drawSmoothedPath_trace, IH, <- app_assoc. reflexivity.
Qed.

(** X1. The smoothing renderer completes normally on every path, whatever
    is already on the context, and adds to it: the four style assignments
    alone for an empty path; a zero-length segment (a dot) for one sample;
    one straight segment for two samples; the smoothing scheme for three
    or more.  No array read is out of range. *)
Theorem drawSmoothedPath_commands (path : Path) (ctx : Ctx) :
  drawSmoothedPath path ctx = Normal tt (ctx ++ path_commands path).
Proof. apply drawSmoothedPath_trace. Qed.

Lemma nth_last_index {A} (a : list A) (d : A) :
  nth (length a - 1) a d = last a d.
Proof.
  induction a as [|e [|e' rest] IH]; try reflexivity.
  change (last (e :: e' :: rest) d) with (last (e' :: rest) d).
  rewrite <- IH. cbn [length].
  replace (S (S (length rest)) - 1) with (S (S (length rest) - 1)) by lia.
  reflexivity.
Qed.

Lemma last_cons_default {A} (a : list A) :
  forall e d : A, last (e :: a) d = last a e.
Proof.
  induction a as [|e' rest IH]; intros e d; [reflexivity|].
  change (last (e :: e' :: rest) d) with (last (e' :: rest) d).
  rewrite IH. symmetry. apply IH.
Qed.

Lemma endpoint_curve (control target : Point) :
  endpoint (curve control target) = Some target.
Proof. destruct target. reflexivity. Qed.

Lemma interior_curves_are_curves (pts : list Point) (indices : list nat) :
  forallb is_curve (map (interior_curve pts) indices) = true.
Proof. induction indices as [|i rest IH]; [reflexivity|exact IH]. Qed.

(** X2. The stroke of a non-empty path starts at its first sample and ends
    at its last: after [beginPath] and a [moveTo] to the first sample the
    renderer issues [max 1 (n - 2)] path segments for [n] samples, the
    last of which ends exactly at the last sample, and then [stroke]; from
    three samples on, every segment is a quadratic curve. *)
Theorem stroke_spans_samples (p0 : Point) (rest : list Point) (c : string)
  (w : number) (ctx : Ctx) :
  exists segments : list CanvasOp,
    drawSmoothedPath (mkPath (p0 :: rest) c w) ctx =
      Normal tt (ctx ++ style_commands (mkPath (p0 :: rest) c w)
                     ++ [BeginPath; MoveTo p0.(x) p0.(y)]
                     ++ segments ++ [Stroke])
    /\ length segments = Nat.max 1 (length rest - 1)
    /\ endpoint (last segments Stroke) = Some (last rest p0)
    /\ (2 <= length rest -> forallb is_curve segments = true).
Proof.
  rewrite drawSmoothedPath_trace. unfold path_commands. cbn [points].
  destruct rest as [|p1 [|p2 rest]].
  - exists [LineTo p0.(x) p0.(y)]. repeat split.
    + destruct p0; reflexivity.
    + cbn. lia.
  - exists [LineTo p1.(x) p1.(y)]. repeat split.
    + destruct p1; reflexivity.
    + cbn. lia.
  - exists (map (interior_curve (p0 :: p1 :: p2 :: rest))
                (seq 1 (length (p0 :: p1 :: p2 :: rest) - 3))
            ++ [curve (sample (p0 :: p1 :: p2 :: rest)
                              (length (p0 :: p1 :: p2 :: rest) - 2))
                      (sample (p0 :: p1 :: p2 :: rest)
                              (length (p0 :: p1 :: p2 :: rest) - 1))]).
    split; [|split; [|split]].
    + unfold smoothed_commands. cbn [sample nth app].
      repeat (rewrite <- app_assoc; cbn [app]). reflexivity.
    + rewrite length_app, length_map, length_seq. cbn [length]. lia.
    + rewrite last_last, endpoint_curve. unfold sample.
      rewrite nth_last_index, last_cons_default. reflexivity.
    + intros _. rewrite forallb_app, interior_curves_are_curves. reflexivity.
Qed.

(** ** The polyline renderer *)

Lemma drawPolyline_trace (path : Path) (ctx : Ctx) :
  drawPolyline path ctx =
  Normal tt
    (ctx ++ style_commands path ++ BeginPath ::
       match path.(points) with
       | [] => []
       | p0 :: _ =>
           MoveTo p0.(x) p0.(y)
           :: map (fun point => LineTo point.(x) point.(y)) path.(points)
           ++ [Stroke]
       end).
Proof.
  unfold drawPolyline, style_commands, bind. cbn [emit].
  destruct path as [pts c w]. cbn [points color strokeWidth].
  destruct pts as [|p0 rest].
  - cbn. repeat (rewrite <- app_assoc; cbn [app]). reflexivity.
  - cbn [length Nat.ltb Nat.leb idx nth_error].
    rewrite (forEach_emit (p0 :: rest) (fun point => LineTo (x point) (y point))).
    unfold emit. repeat (rewrite <- app_assoc; cbn [app]). reflexivity.
Qed.

(** X3. The polyline renderer completes normally on every path: it begins a
    path even for an empty sample list and then strokes nothing; for a
    non-empty one it moves to the first sample, draws a straight segment
    to every sample in order (the first included), and strokes.  On a
    single sample it issues exactly the operations of the smoothing
    renderer. *)
Theorem drawPolyline_commands (path : Path) (ctx : Ctx) :
  drawPolyline path ctx =
    Normal tt
      (ctx ++ style_commands path ++ BeginPath ::
         match path.(points) with
         | [] => []
         | p0 :: _ =>
             MoveTo p0.(x) p0.(y)
             :: map (fun point => LineTo point.(x) point.(y)) path.(points)
             ++ [Stroke]
         end)
  /\ forall (p : Point) (c : string) (w : number),
       drawPolyline (mkPath [p] c w) ctx = drawSmoothedPath (mkPath [p] c w) ctx.
Proof.
  split; [apply drawPolyline_trace|].
  intros p c w. rewrite drawPolyline_trace, drawSmoothedPath_trace. reflexivity.
Qed.

(** ** Screen and export *)

Lemma fill_then_draw (fill : string) (cv : HTMLCanvasElement)
  (paths : list Path) (ctx : Ctx) :
  (emit (SetFillStyle fill) ;;
   emit (FillRect zero zero cv.(width) cv.(height)) ;;
   forEach paths drawSmoothedPath) ctx =
  Normal tt (ctx ++ [SetFillStyle fill;
                     FillRect zero zero cv.(width) cv.(height)]
                 ++ flat_map path_commands paths).
Proof.
  unfold bind. cbn [emit]. rewrite forEach_draw_trace.
  repeat (rewrite <- app_assoc; cbn [app]). reflexivity.
Qed.

(** X4. A redraw never throws.  When the canvas is not mounted, or yields
    no 2D context, it paints nothing; otherwise it paints, in this order:
    the background over the whole canvas, every path of History from the
    oldest to the newest, and last (on top) the path in progress, if there
    is one. *)
Theorem redrawCanvas_commands (p : Props) (canvas : option HTMLCanvasElement)
  (s : State) (ctx : Ctx) :
  redrawCanvas p canvas s ctx =
  Normal tt
    (ctx ++ match canvas with
            | None => []
            | Some cv =>
                if cv.(context2d) then
                  [SetFillStyle p.(canvasColor);
                   FillRect zero zero cv.(width) cv.(height)]
                  ++ flat_map path_commands s.(history)
                  ++ match s.(currentPath) with
                     | Some cp => path_commands cp
                     | None => []
                     end
                else []
            end).
Proof.
  unfold redrawCanvas. destruct canvas as [cv|].
  - destruct (context2d cv); cbn [negb].
    + rewrite fill_then_draw. destruct (currentPath s) as [cp|].
      * rewrite flat_map_app. cbn [flat_map]. rewrite app_nil_r. reflexivity.
      * rewrite app_nil_r. reflexivity.
    + unfold ret. rewrite app_nil_r. reflexivity.
  - unfold ret. rewrite app_nil_r. reflexivity.
Qed.

(** X5. [getImageData] never throws.  Without a mounted canvas, or without
    a context for the temporary canvas, it returns the empty string
    whatever the state; otherwise it returns the encoding, at the size of
    the canvas, of the background fill followed by the paths of History
    from the oldest to the newest. *)
Theorem getImageData_value (toDataURL : Encoder) (js : Engine) (p : Props)
  (tempCtx : bool) (s : State) :
  getImageData toDataURL js p None tempCtx s = Value ""
  /\ (forall cv : HTMLCanvasElement,
        getImageData toDataURL js p (Some cv) false s = Value "")
  /\ (forall cv : HTMLCanvasElement,
        getImageData toDataURL js p (Some cv) true s =
        Value (toDataURL cv.(width) cv.(height)
                 ([SetFillStyle p.(canvasColor);
                   FillRect zero zero cv.(width) cv.(height)]
                  ++ flat_map path_commands s.(history)))).
Proof.
  repeat split. intros cv. unfold getImageData, exportDrawing. cbn [negb].
  rewrite fill_then_draw. reflexivity.
Qed.

(** C5. The export does not depend on the path in progress: exporting
    after a pointer-down equals exporting before it, and two states with
    the same History export the same image whatever their paths in
    progress and drawing flags.  What [getImageData] returns for a mounted
    canvas is the encoding of the background fill followed by the
    committed paths of History, oldest first, and of nothing else; without
    a canvas or a context for the temporary canvas it is the empty
    string. *)
Theorem export_ignores_stroke_in_progress (toDataURL : Encoder) (js : Engine)
  (p : Props) (canvas : option HTMLCanvasElement) (tempCtx : bool) :
  (forall (s : State) (p' : Props) (canvas' : option HTMLCanvasElement)
          (event : Event),
      getImageData toDataURL js p canvas tempCtx
                   (startDrawing p' canvas' event s) =
      getImageData toDataURL js p canvas tempCtx s)
  /\ (forall (h : list Path) (d1 d2 : bool) (cp1 cp2 : option Path),
        getImageData toDataURL js p canvas tempCtx (mkState d1 h cp1) =
        getImageData toDataURL js p canvas tempCtx (mkState d2 h cp2))
  /\ (forall (s : State) (cv : HTMLCanvasElement),
        exportDrawing p cv s [] =
        forEach (history s) drawSmoothedPath
          [SetFillStyle (canvasColor p);
           FillRect zero zero (width cv) (height cv)])
  /\ (forall (s : State) (cv : HTMLCanvasElement),
        getImageData toDataURL js p (Some cv) true s =
        Value (toDataURL (width cv) (height cv)
                 ([SetFillStyle (canvasColor p);
                   FillRect zero zero (width cv) (height cv)]
                  ++ flat_map path_commands (history s))))
  /\ (forall s : State,
        canvas = None \/ tempCtx = false ->
        getImageData toDataURL js p canvas tempCtx s = Value "").
Proof.
  split; [|split; [|split; [|split]]].
  - intros s p' canvas' event. unfold startDrawing.
    destruct (getCoordinates canvas' event); reflexivity.
  - reflexivity.
  - reflexivity.
  - intros s cv. unfold getImageData, exportDrawing. cbn [negb].
    rewrite fill_then_draw. reflexivity.
  - intros s [->| ->]; [reflexivity|].
    unfold getImageData. destruct canvas; reflexivity.
Qed.

(** ** Loading an image *)

(** X6. After an image has loaded, the redraw that the state change brings
    about paints the background over the whole canvas: the operations on
    the canvas end with that fill, after the [drawImage], so the loaded
    image is covered. *)
Theorem loaded_image_is_painted_over (img : PendingImage) (p : Props)
  (cv : HTMLCanvasElement) (s : State) (ctx : Ctx) :
  onload_then_render img p cv s ctx =
  Normal tt
    (ctx ++ [SetFillStyle img.(img_fill);
             FillRect zero zero cv.(width) cv.(height);
             DrawImage img.(img_src) zero zero cv.(width) cv.(height);
             SetFillStyle p.(canvasColor);
             FillRect zero zero cv.(width) cv.(height)]).
Proof.
  unfold onload_then_render, bind. rewrite onload_paint_trace.
  unfold redrawCanvas_polyline, bind. cbn [emit onload currentPath history forEach ret].
  repeat (rewrite <- app_assoc; cbn [app]). reflexivity.
Qed.

(** ** Coordinates and ignored input *)

(** X7. A coordinate resolves exactly when the canvas is mounted and the
    event is a mouse event or a touch event with at least one touch; of a
    touch event only the first touch counts, and it resolves to what a
    mouse event at the same client position resolves to. *)
Theorem getCoordinates_resolution (canvas : option HTMLCanvasElement)
  (event : Event) :
  (getCoordinates canvas event = None <->
   canvas = None \/ event = TouchEvent [])
  /\ forall (t : Touch) (others : list Touch),
       getCoordinates canvas (TouchEvent (t :: others)) =
       getCoordinates canvas (MouseEvent t.(touchX) t.(touchY)).
Proof.
  split.
  - destruct canvas as [cv|]; cbn.
    + destruct event as [cx cy|[|t others]]; split;
        try discriminate; try (intros [H|H]; discriminate); auto.
    + split; auto.
  - intros t others. destruct canvas; reflexivity.
Qed.

Lemma unresolved_step (c : Component) (a : Action) :
  unresolved a = true -> step c a = c.
Proof.
  destruct c as [pr s]. destruct a; try discriminate; cbn [unresolved step props state];
    destruct (getCoordinates canvas event) eqn:E; try discriminate; intros _.
  - unfold startDrawing. rewrite E. reflexivity.
  - rewrite (draw_unresolved _ _ _ E). reflexivity.
Qed.

(** X8. Pointer events whose coordinate does not resolve (the canvas is
    not mounted, or a touch event carries no touch) change nothing,
    pointer-downs as well as pointer moves, in any state and in any
    number. *)
Theorem unresolved_input_ignored (actions : list Action) (c : Component) :
  forallb unresolved actions = true -> run actions c = c.
Proof.
  revert c. induction actions as [|a rest IH]; intros c Hall; [reflexivity|].
  cbn [forallb] in Hall. apply andb_prop in Hall. destruct Hall as [Ha Hrest].
  change (run (a :: rest) c) with (run rest (step c a)).
  rewrite (unresolved_step c a Ha). apply IH. exact Hrest.
Qed.

Lemma unresolved_input_ignored_witness :
  run [PointerDown None (MouseEvent 18%float 58%float);
       PointerMove (Some mountedCanvas) (TouchEvent []);
       PointerDown (Some mountedCanvas) (TouchEvent [])]
      midStroke = midStroke.
Proof.
  exact (unresolved_input_ignored
           [PointerDown None (MouseEvent 18%float 58%float);
            PointerMove (Some mountedCanvas) (TouchEvent []);
            PointerDown (Some mountedCanvas) (TouchEvent [])]
           midStroke eq_refl).
Defined.




(** ** Invariants of the component state *)


Lemma step_keeps_stroke_consistent (c : Component) (a : Action) :
  stroke_consistent (state c) -> stroke_consistent (state (step c a)).
Proof.
  unfold stroke_consistent. destruct c as [pr [d h cp]].
  destruct a; cbn [step state props]; intros Hinv; try exact I; try exact Hinv.
  - unfold startDrawing. destruct (getCoordinates canvas event);
      [cbn; split; [reflexivity|lia]|exact Hinv].
  - unfold draw. cbn [isDrawing currentPath history].
    destruct d; cbn [negb]; [|exact Hinv].
    destruct (getCoordinates canvas event); [|exact Hinv].
    destruct cp as [path|]; [|exact I].
    cbn [currentPath isDrawing points]. split; [reflexivity|].
    rewrite length_app. cbn. lia.
  - unfold finishDrawing. cbn [isDrawing currentPath history].
    destruct d; cbn [negb]; [|exact Hinv].
    destruct cp as [path|]; exact I.
Qed.

Lemma run_keeps_stroke_consistent (actions : list Action) :
  forall c : Component,
    stroke_consistent (state c) -> stroke_consistent (state (run actions c)).
Proof.
  induction actions as [|a rest IH]; intros c Hinv; [exact Hinv|].
  change (run (a :: rest) c) with (run rest (step c a)).
  apply IH. apply step_keeps_stroke_consistent. exact Hinv.
Qed.

(** X10. In every state the mounted component reaches, by any events and
    any calls on its handle, a path in progress exists only while the
    drawing flag is set, and it holds at least one sample. *)
Theorem path_in_progress_consistent (p : Props) (actions : list Action)
  (cp : Path) :
  currentPath (state (run actions (mount p))) = Some cp ->
  isDrawing (state (run actions (mount p))) = true
  /\ 1 <= length (points cp).
Proof.
  intros Hcp.
  pose proof (run_keeps_stroke_consistent actions (mount p) I) as Hinv.
  unfold stroke_consistent in Hinv. rewrite Hcp in Hinv. exact Hinv.
Qed.

Lemma path_in_progress_consistent_witness :
  isDrawing (state (run (press :: restyledStroke) (mount defaultProps))) = true
  /\ 1 <= length (points (mkPath [mkPoint 10%float 10%float;
                                   mkPoint 20%float 20%float;
                                   mkPoint 30%float 30%float]
                                  "#FFFFFF" 5%float)).
Proof.
  exact (path_in_progress_consistent defaultProps (press :: restyledStroke)
           _ eq_refl).
Defined.

Lemma input_step_keeps_history (c : Component) (a : Action) :
  is_input a = true -> history (state (step c a)) = history (state c).
Proof.
  destruct c as [pr s]. destruct a; try discriminate; intros _;
    cbn [step state props].
  - reflexivity.
  - unfold startDrawing. destruct (getCoordinates canvas event); reflexivity.
  - unfold draw. destruct (negb (isDrawing s)); [reflexivity|].
    destruct (getCoordinates canvas event), (currentPath s); reflexivity.
Qed.

(** X11. Pointer-downs, pointer moves and changes of the props never touch
    History: whatever the user presses, drags or restyles, the committed
    paths stay as they are until a pointer-up or a call on the handle. *)
Theorem input_keeps_history (actions : list Action) (c : Component) :
  forallb is_input actions = true ->
  history (state (run actions c)) = history (state c).
Proof.
  revert c. induction actions as [|a rest IH]; intros c Hall; [reflexivity|].
  cbn [forallb] in Hall. apply andb_prop in Hall. destruct Hall as [Ha Hrest].
  change (run (a :: rest) c) with (run rest (step c a)).
  rewrite (IH _ Hrest). apply input_step_keeps_history. exact Ha.
Qed.

Lemma input_keeps_history_witness :
  history (state (run (press :: restyledStroke ++ [press]) midStroke)) =
  history (state midStroke).
Proof.
  exact (input_keeps_history (press :: restyledStroke ++ [press]) midStroke
           eq_refl).
Defined.

(** X13. [n] calls of [undo()] remove the last [n] paths of History and
    leave the ones before them, in order; once History is empty further
    calls do nothing to it. *)
Theorem undo_repeated (n : nat) (c : Component) :
  history (state (run (repeat CallUndo n) c)) =
  firstn (length (history (state c)) - n) (history (state c)).
Proof.
  revert c. induction n as [|n IH]; intros c; cbn [repeat].
  - rewrite Nat.sub_0_r, firstn_all. reflexivity.
  - change (run (CallUndo :: repeat CallUndo n) c)
      with (run (repeat CallUndo n) (step c CallUndo)).
    rewrite IH. cbn [step state undo history]. unfold slice_0_minus1.
    rewrite firstn_firstn, length_firstn. f_equal. lia.
Qed.

(** ** The enhancement flow *)

(** X14. [handleBeautify] without a canvas handle changes nothing and calls
    nothing; with one, it always ends with the loading flag cleared,
    calls the service at most once, and calls [loadImage] at most once and
    only after a call of the service. *)
Theorem handleBeautify_settles (js : Engine) (beautifyDrawing : Binding)
  (app : AppState) :
  handleBeautify js beautifyDrawing None app = mkOutcome app [] []
  /\ forall h : CanvasHandles,
       isLoading (app_after (handleBeautify js beautifyDrawing (Some h) app)) = false
       /\ length (loadImage_calls (handleBeautify js beautifyDrawing (Some h) app))
          <= length (service_calls (handleBeautify js beautifyDrawing (Some h) app))
       /\ length (service_calls (handleBeautify js beautifyDrawing (Some h) app))
          <= 1.
Proof.
  split; [reflexivity|]. intros [[imageData|e]]; unfold handleBeautify;
    cbn [handle_getImageData].
  - destruct (String.length imageData <? 100)%nat; [cbn; lia|].
    destruct beautifyDrawing as [|service]; [cbn; lia|].
    destruct (service imageData); cbn; lia.
  - cbn. lia.
Qed.

(** X15. [loadImage] is called only with the image the service resolved
    to: then no error is shown, the export had passed the length guard,
    and the service had been called once, with the export. *)
Theorem handleBeautify_loads_service_result (js : Engine)
  (beautifyDrawing : Binding) (h : CanvasHandles) (app : AppState)
  (newImage : string) :
  In newImage (loadImage_calls (handleBeautify js beautifyDrawing (Some h) app)) ->
  error (app_after (handleBeautify js beautifyDrawing (Some h) app)) = None
  /\ exists (service : string -> Returned string) (imageData : string),
       beautifyDrawing = Bound service
       /\ handle_getImageData h = Value imageData
       /\ 100 <= String.length imageData
       /\ service imageData = Value newImage
       /\ service_calls (handleBeautify js beautifyDrawing (Some h) app) =
            [imageData].
Proof.
  destruct h as [[imageData|e]]; unfold handleBeautify;
    cbn [handle_getImageData]; [|intros []].
  destruct (Nat.ltb_spec (String.length imageData) 100) as [Hlt|Hge];
    [intros []|].
  destruct beautifyDrawing as [|service]; [intros []|].
  destruct (service imageData) as [img|e] eqn:E; [|intros []].
  cbn. intros [<-|[]]. split; [reflexivity|].
  exists service, imageData. repeat split; auto.
Qed.

Lemma handleBeautify_loads_service_result_witness :
  error (app_after
    (handleBeautify v8 (Bound resolvingService)
       (Some (mkHandles (Value blank_canvas_png))) (mkApp false None))) = None.
Proof.
  exact (proj1 (handleBeautify_loads_service_result v8 (Bound resolvingService)
                  (mkHandles (Value blank_canvas_png)) (mkApp false None)
                  "data:image/png;base64,iVBORw0KGgo="
                  (or_introl eq_refl))).
Defined.

(** ** The client of the service *)

Lemma split_comma_free (s : string) :
  comma_free s = true -> split "," s = [s].
Proof.
  induction s as [|c rest IH]; [reflexivity|].
  cbn [comma_free split]. intros H. apply andb_prop in H. destruct H as [Hc Hrest].
  apply negb_true_iff in Hc. rewrite Hc, (IH Hrest). reflexivity.
Qed.

(** X16. Stripping the prefix of a PNG data URI gives back its payload:
    for every payload without a comma (as base64 text is),
    [stripBase64Prefix] of the data URI built from it is the payload. *)
Theorem stripBase64Prefix_data_uri (payload : string) :
  comma_free payload = true ->
  stripBase64Prefix (String.append "data:image/png;base64," payload) =
  Some payload.
Proof.
  intros H. unfold stripBase64Prefix. cbn. rewrite (split_comma_free _ H).
  reflexivity.
Qed.

Lemma stripBase64Prefix_data_uri_witness :
  stripBase64Prefix "data:image/png;base64,iVBORw0KGgo=" = Some "iVBORw0KGgo=".
Proof. exact (stripBase64Prefix_data_uri "iVBORw0KGgo=" eq_refl). Defined.

(** X17. [stripBase64Prefix] leaves a string that does not start with
    [data:] as it is; on a string that starts with [data:] and holds no
    comma it yields [undefined], there being no second piece of the
    split. *)
Theorem stripBase64Prefix_edges (s : string) :
  (String.prefix "data:" s = false -> stripBase64Prefix s = Some s)
  /\ (String.prefix "data:" s = true -> comma_free s = true ->
      stripBase64Prefix s = None).
Proof.
  unfold stripBase64Prefix. split.
  - intros ->. reflexivity.
  - intros -> H. rewrite (split_comma_free _ H). reflexivity.
Qed.

(** The two ways [beautifyDrawing] settles. *)
Lemma beautifyDrawing_cases
  (generateContent : Request -> Returned (option ResponsePart))
  (base64ImageData : string) :
  (forall e : Thrown,
      beautifyDrawing generateContent base64ImageData = Throws e ->
      e = ErrorObject failedMessage)
  /\ (forall newImage : string,
        beautifyDrawing generateContent base64ImageData = Value newImage ->
        String.prefix "data:image/png;base64," newImage = true
        /\ exists data,
             generateContent
               (mkRequest "gemini-2.5-flash" instruction "image/png"
                          (stripBase64Prefix base64ImageData)) =
             Value (Some (InlineDataPart data))).
Proof.
  unfold beautifyDrawing, beautifyDrawing_try.
  destruct (generateContent _) as [[[data|]|]|e0]; split;
    try (intros e H; inversion H; reflexivity);
    try (intros newImage H; discriminate H).
  intros newImage H. injection H as <-. split.
  - destruct data as [[|c rest]|]; reflexivity.
  - exists data. reflexivity.
Qed.

(** X18. Whatever the remote call does, [beautifyDrawing] either resolves
    to a PNG data URI or rejects with the one message "Failed to beautify
    the drawing with AI. Please try again.": the error of the remote call
    and the inner "AI did not return a valid image." never reach the
    caller.  It resolves exactly when the first part of the response
    carries inline data, and then to the data URI of that data. *)
Theorem beautifyDrawing_outcomes
  (generateContent : Request -> Returned (option ResponsePart))
  (base64ImageData : string) :
  (forall e : Thrown,
      beautifyDrawing generateContent base64ImageData = Throws e ->
      e = ErrorObject failedMessage)
  /\ (forall newImage : string,
        beautifyDrawing generateContent base64ImageData = Value newImage ->
        String.prefix "data:image/png;base64," newImage = true
        /\ exists data,
             generateContent
               (mkRequest "gemini-2.5-flash" instruction "image/png"
                          (stripBase64Prefix base64ImageData)) =
             Value (Some (InlineDataPart data)))
  /\ (forall data : option string,
        generateContent
          (mkRequest "gemini-2.5-flash" instruction "image/png"
                     (stripBase64Prefix base64ImageData)) =
        Value (Some (InlineDataPart data)) ->
        beautifyDrawing generateContent base64ImageData =
        Value (String.append "data:image/png;base64,"
                 (match data with
                  | Some newBase64 => newBase64
                  | None => "undefined"
                  end))).
Proof.
  destruct (beautifyDrawing_cases generateContent base64ImageData) as [H1 H2].
  split; [exact H1|]. split; [exact H2|].
  intros data H. unfold beautifyDrawing, beautifyDrawing_try. rewrite H.
  reflexivity.
Qed.

(** X19. The enhancement of the canvas through the client of the service:
    whatever the canvas holds and whatever the remote call does, the user
    is shown no error and [loadImage] receives one PNG data URI, or the
    validation message is shown and the service is not called, or the one
    failure message of the client is shown; in the last two cases
    [loadImage] is not called. *)
Theorem enhancement_outcomes (toDataURL : Encoder) (js : Engine)
  (generateContent : Request -> Returned (option ResponsePart))
  (c : Component) (canvas : option HTMLCanvasElement) (tempCtx : bool)
  (app : AppState) :
  let out :=
    handleBeautify js (Bound (beautifyDrawing generateContent))
      (Some (handles toDataURL js c canvas tempCtx)) app in
  (error (app_after out) = None
   /\ exists newImage,
        loadImage_calls out = [newImage]
        /\ String.prefix "data:image/png;base64," newImage = true)
  \/ (error (app_after out) = Some validationMessage
      /\ service_calls out = [] /\ loadImage_calls out = [])
  \/ (error (app_after out) = Some failedMessage
      /\ loadImage_calls out = []).
Proof.
  intros out. subst out. unfold handleBeautify, handles.
  cbn [handle_getImageData].
  destruct (getImageData_returns toDataURL js (props c) canvas tempCtx (state c))
    as [url ->].
  destruct (String.length url <? 100)%nat.
  - right. left. repeat split.
  - destruct (beautifyDrawing_cases generateContent url) as [Hthrow Hvalue].
    destruct (beautifyDrawing generateContent url) as [newImage|e].
    + left. split; [reflexivity|]. exists newImage. split; [reflexivity|].
      apply (Hvalue newImage eq_refl).
    + right. right. rewrite (Hthrow e eq_refl). split; reflexivity.
Qed.

(** ** The tools *)

Lemma tool_steps_brush (actions : list ToolAction) :
  forall t : Tools,
    strokeColor (canvasProps (fold_left tool_step actions t)) =
    last_brush actions (strokeColor (canvasProps t)).
Proof.
  induction actions as [|a rest IH]; intros t; [reflexivity|].
  cbn [fold_left last_brush]. rewrite IH. destruct a; reflexivity.
Qed.

(** X20. After any sequence of colour picks, eraser selections and width
    changes, the colour the canvas draws with is the last colour picked,
    unless the eraser was selected after it, in which case it is the
    canvas colour #1e293b; width changes do not affect it, and the canvas
    colour is #1e293b throughout. *)
Theorem brush_colour_after_tools (actions : list ToolAction) (t : Tools) :
  strokeColor (canvasProps (fold_left tool_step actions t)) =
    last_brush actions (strokeColor (canvasProps t))
  /\ canvasColor (canvasProps (fold_left tool_step actions t)) = "#1e293b".
Proof. split; [apply tool_steps_brush|reflexivity]. Qed.

Lemma moves_keep_props (moves : list Action) :
  forall c : Component,
    forallb resolves moves = true -> props (run moves c) = props c.
Proof.
  induction moves as [|a rest IH]; intros c Hall; [reflexivity|].
  cbn [forallb] in Hall. apply andb_prop in Hall. destruct Hall as [Ha Hrest].
  change (run (a :: rest) c) with (run rest (step c a)).
  rewrite (IH _ Hrest). destruct a; try discriminate Ha. reflexivity.
Qed.

(** A stroke drawn with the eraser selected, when the component renders
    after every event: History grows by one path, whose colour is the
    canvas colour and whose width is the width of the tools, and an
    [undo()] takes it out again. *)
Lemma eraser_stroke (t : Tools) (s : State)
  (canvas : option HTMLCanvasElement) (event : Event) (pt : Point)
  (moves : list Action) :
  getCoordinates canvas event = Some pt ->
  forallb resolves moves = true ->
  1 <= length moves ->
  let erasing := mkComponent (canvasProps (handleEraserSelect t)) s in
  let c' := run (PointerDown canvas event :: moves ++ [PointerUp]) erasing in
  history (state c') =
    history s ++ [mkPath (pt :: sampled moves)
                         (canvasColor (props c')) (tool_strokeWidth t)]
  /\ history (state (step c' CallUndo)) = history s.
Proof.
  intros Hc Hmoves Hlen erasing c'.
  assert (Hprops : props c' = canvasProps (handleEraserSelect t)).
  { subst c'.
    change (run (PointerDown canvas event :: moves ++ [PointerUp]) erasing)
      with (run (moves ++ [PointerUp]) (step erasing (PointerDown canvas event))).
    rewrite run_app. cbn [run fold_left step props].
    rewrite (moves_keep_props moves _ Hmoves). reflexivity. }
  assert (Hhist : history (state c') =
            history s ++ [mkPath (pt :: sampled moves) "#1e293b"
                                 (tool_strokeWidth t)]).
  { subst c'.
    change (run (PointerDown canvas event :: moves ++ [PointerUp]) erasing)
      with (run (moves ++ [PointerUp]) (step erasing (PointerDown canvas event))).
    rewrite run_app.
    change (state (run [PointerUp]
              (run moves (step erasing (PointerDown canvas event)))))
      with (finishDrawing
              (state (run moves (step erasing (PointerDown canvas event))))).
    rewrite (stroke_in_progress erasing canvas event pt moves Hc
               (resolved_moves_restyle moves Hmoves)).
    unfold finishDrawing. cbn [isDrawing negb currentPath history points length].
    rewrite (sampled_length moves Hmoves).
    destruct (Nat.ltb_spec 1 (S (length moves))) as [_|E]; [reflexivity|lia]. }
  split.
  - rewrite Hhist, Hprops. reflexivity.
  - cbn [step state undo history]. rewrite Hhist. apply slice_0_minus1_snoc.
Qed.

(** ** Download *)

(** X22. The download never throws on the handle of the canvas and always
    clicks a link named drawing.png whose target is the export of the
    committed drawing; there is no guard on the export, so an unmounted
    canvas yields a link with an empty target.  Without a handle nothing
    is downloaded. *)
Theorem download_link (toDataURL : Encoder) (js : Engine) (c : Component)
  (canvas : option HTMLCanvasElement) (tempCtx : bool) :
  handleDownload None = Value None
  /\ exists url : string,
       getImageData toDataURL js (props c) canvas tempCtx (state c) = Value url
       /\ handleDownload (Some (handles toDataURL js c canvas tempCtx)) =
            Value (Some (mkDownload url "drawing.png"))
       /\ (canvas = None -> url = "").
Proof.
  split; [reflexivity|].
  destruct (getImageData_returns toDataURL js (props c) canvas tempCtx (state c))
    as [url Hurl].
  exists url. split; [exact Hurl|]. split.
  - unfold handleDownload, handles. cbn [handle_getImageData].
    rewrite Hurl. reflexivity.
  - intros ->. cbn in Hurl. injection Hurl as <-. reflexivity.
Qed.

Lemma handleBeautify_short_export_witness :
  handleBeautify v8 (Bound resolvingService)
    (Some (handles (fun _ _ _ => blank_canvas_png) v8 midStroke None true))
    (mkApp true (Some "stale")) =
  mkOutcome (mkApp false (Some validationMessage)) [] [].
Proof.
  exact (handleBeautify_short_export v8 (Bound resolvingService)
           (handles (fun _ _ _ => blank_canvas_png) v8 midStroke None true)
           (mkApp true (Some "stale")) "" eq_refl ltac:(cbn; lia)).
Defined.

(** ** A pointer-down during a stroke *)

(** A pointer-down that resolves during a stroke, when the component
    renders after every event: after a first press with its moves, a
    second press with one or more moves that resolve, and a pointer-up,
    History has grown by the one path of the second press and its moves. *)
Lemma second_press_restarts_stroke (c : Component)
  (canvas1 canvas2 : option HTMLCanvasElement) (event1 event2 : Event)
  (pt1 pt2 : Point) (moves1 moves2 : list Action) :
  getCoordinates canvas1 event1 = Some pt1 ->
  getCoordinates canvas2 event2 = Some pt2 ->
  forallb resolves moves1 = true ->
  forallb resolves moves2 = true ->
  1 <= length moves2 ->
  history (state (run (PointerDown canvas1 event1 :: moves1
                       ++ PointerDown canvas2 event2 :: moves2
                       ++ [PointerUp]) c)) =
  history (state c)
  ++ [mkPath (pt2 :: sampled moves2)
             (strokeColor (props c)) (brushWidth (props c))].
Proof.
  intros H1 H2 Hm1 Hm2 Hlen.
  change (run (PointerDown canvas1 event1 :: moves1
               ++ PointerDown canvas2 event2 :: moves2 ++ [PointerUp]) c)
    with (run (moves1 ++ PointerDown canvas2 event2 :: moves2 ++ [PointerUp])
              (step c (PointerDown canvas1 event1))).
  rewrite run_app.
  set (c1 := run moves1 (step c (PointerDown canvas1 event1))).
  assert (Hc1 : props c1 = props c /\ history (state c1) = history (state c)).
  { subst c1. split.
    - rewrite (moves_keep_props moves1 _ Hm1). reflexivity.
    - rewrite (stroke_in_progress c canvas1 event1 pt1 moves1 H1
                 (resolved_moves_restyle moves1 Hm1)). reflexivity. }
  destruct Hc1 as [Hp Hh].
  change (run (PointerDown canvas2 event2 :: moves2 ++ [PointerUp]) c1)
    with (run (moves2 ++ [PointerUp]) (step c1 (PointerDown canvas2 event2))).
  rewrite run_app.
  change (state (run [PointerUp]
            (run moves2 (step c1 (PointerDown canvas2 event2)))))
    with (finishDrawing
            (state (run moves2 (step c1 (PointerDown canvas2 event2))))).
  rewrite (stroke_in_progress c1 canvas2 event2 pt2 moves2 H2
             (resolved_moves_restyle moves2 Hm2)).
  unfold finishDrawing. cbn [isDrawing negb currentPath history points length].
  rewrite (sampled_length moves2 Hm2), Hp, Hh.
  destruct (Nat.ltb_spec 1 (S (length moves2))) as [_|E]; [reflexivity|lia].
Qed.

(** ** The listeners between renders *)

Lemma play_app (a b : list Tick) (m : Mounted) :
  play (a ++ b) m = play b (play a m).
Proof. unfold play. apply fold_left_app. Qed.

(** An event followed by a render, on a component that had just rendered,
    is a step of the component. *)
Lemma step_rendered (c : Component) (a : Action) :
  tick (tick (fresh c) (Deliver a)) Render = fresh (step c a).
Proof. destruct c as [pr s]. destruct a; reflexivity. Qed.

(** With a render after every event the listeners always hold the current
    state, and the mounted component goes through the states of [run]. *)
Lemma play_rendered (actions : list Action) :
  forall c : Component,
    play (rendered_after_each actions) (fresh c) = fresh (run actions c).
Proof.
  induction actions as [|a rest IH]; intros c; [reflexivity|].
  change (play (rendered_after_each (a :: rest)) (fresh c))
    with (play (rendered_after_each rest)
               (tick (tick (fresh c) (Deliver a)) Render)).
  rewrite step_rendered. apply IH.
Qed.

(** Pointer moves with no render in between: the listener keeps passing
    its guards on the state of the last render, and every coordinate is
    appended to the queued path. *)
Lemma moves_between_renders (moves : list Action) :
  forall (m : Mounted) (seen p : Path),
    forallb resolves moves = true ->
    isDrawing (rendered m) = true ->
    currentPath (rendered m) = Some seen ->
    currentPath (queued m) = Some p ->
    play (map Deliver moves) m =
    mkMounted (passed m) (rendered m)
      (mkState (isDrawing (queued m)) (history (queued m))
         (Some (mkPath (points p ++ sampled moves) (color p) (strokeWidth p)))).
Proof.
  induction moves as [|a rest IH]; intros m seen p Hall Hd Hseen Hp.
  - cbn [map play fold_left sampled]. rewrite app_nil_r.
    destruct m as [pr r [d h cp]], p as [pts col w]. cbn in *. congruence.
  - cbn [forallb] in Hall. apply andb_prop in Hall. destruct Hall as [Ha Hrest].
    destruct a; try discriminate Ha. cbn [resolves] in Ha.
    change (play (map Deliver (PointerMove canvas event :: rest)) m)
      with (play (map Deliver rest) (deliver m (PointerMove canvas event))).
    cbn [sampled]. destruct (getCoordinates canvas event) as [pt|] eqn:Hc;
      [|discriminate Ha].
    assert (Hstep : deliver m (PointerMove canvas event) =
              mkMounted (passed m) (rendered m)
                (mkState (isDrawing (queued m)) (history (queued m))
                   (Some (mkPath (points p ++ [pt]) (color p) (strokeWidth p))))).
    { cbn [deliver]. unfold draw_in. rewrite Hd, Hc, Hseen, Hp. reflexivity. }
    rewrite Hstep.
    rewrite (IH _ seen (mkPath (points p ++ [pt]) (color p) (strokeWidth p)) Hrest);
      cbn [passed rendered queued isDrawing history currentPath points color
           strokeWidth]; auto.
    rewrite <- app_assoc. reflexivity.
Qed.

(** What a pointer-up commits: the path of the last render. *)
Lemma stroke_commit_between_renders (m : Mounted)
  (canvas : option HTMLCanvasElement) (event : Event) (pt : Point)
  (moves1 moves2 : list Action) :
  getCoordinates canvas event = Some pt ->
  forallb resolves moves1 = true ->
  forallb resolves moves2 = true ->
  queued (play (Deliver (PointerDown canvas event) :: Render
                :: map Deliver moves1 ++ Render
                :: map Deliver moves2 ++ [Deliver PointerUp]) m) =
  mkState false
    (if (1 <=? length moves1)%nat then
       history (queued m)
       ++ [mkPath (pt :: sampled moves1)
                  (strokeColor (passed m)) (brushWidth (passed m))]
     else history (queued m))
    None.
Proof.
  intros Hc H1 H2.
  set (stroke pts := mkPath pts (strokeColor (passed m)) (brushWidth (passed m))).
  set (q1 := mkState true (history (queued m)) (Some (stroke [pt]))).
  change (play (Deliver (PointerDown canvas event) :: Render
                :: map Deliver moves1 ++ Render
                :: map Deliver moves2 ++ [Deliver PointerUp]) m)
    with (play (map Deliver moves1 ++ Render
                :: map Deliver moves2 ++ [Deliver PointerUp])
               (tick (deliver m (PointerDown canvas event)) Render)).
  assert (E1 : tick (deliver m (PointerDown canvas event)) Render =
               mkMounted (passed m) q1 q1).
  { cbn [deliver tick passed queued].
    rewrite (startDrawing_resolved _ _ _ _ _ Hc). reflexivity. }
  rewrite E1, play_app.
  rewrite (moves_between_renders moves1 (mkMounted (passed m) q1 q1)
             (stroke [pt]) (stroke [pt]) H1 eq_refl eq_refl eq_refl).
  cbn [passed rendered queued isDrawing history q1 points color strokeWidth
       stroke app].
  set (q2 := mkState true (history (queued m)) (Some (stroke (pt :: sampled moves1)))).
  match goal with
  | |- _ = ?committed =>
      change (queued (play (map Deliver moves2 ++ [Deliver PointerUp])
                           (mkMounted (passed m) q2 q2)) = committed)
  end.
  rewrite play_app.
  rewrite (moves_between_renders moves2 (mkMounted (passed m) q2 q2)
             (stroke (pt :: sampled moves1)) (stroke (pt :: sampled moves1))
             H2 eq_refl eq_refl eq_refl).
  cbn [play fold_left tick deliver passed rendered queued].
  unfold finishDrawing_in.
  cbn [q2 isDrawing negb currentPath history stroke points length].
  rewrite (sampled_length moves1 H1).
  destruct moves1 as [|a rest]; reflexivity.
Qed.

(** C2 (what the code does).  [finishDrawing] tests and appends the path
    of the render in which it was registered, not the path the moves have
    grown since.  After a pointer-down that resolves and the render that
    follows it, [k] moves, a render, [m] more moves and a pointer-up with
    no render before it: History has gained a path of the first [k + 1]
    samples when [k >= 1], and nothing when [k = 0]; the [m] last moves,
    and for [k = 0] the whole stroke, are dropped with the path in
    progress.  The claim's [N + 1] points are committed only for
    [m = 0]. *)
Theorem pointer_up_commits_rendered_path (m : Mounted)
  (canvas : option HTMLCanvasElement) (event : Event) (pt : Point)
  (moves1 moves2 : list Action) :
  getCoordinates canvas event = Some pt ->
  forallb resolves moves1 = true ->
  forallb resolves moves2 = true ->
  let m' :=
    play (Deliver (PointerDown canvas event) :: Render
          :: map Deliver moves1 ++ Render
          :: map Deliver moves2 ++ [Deliver PointerUp]) m in
  currentPath (queued m') = None
  /\ isDrawing (queued m') = false
  /\ (length moves1 = 0 -> history (queued m') = history (queued m))
  /\ (1 <= length moves1 ->
      history (queued m') =
        history (queued m)
        ++ [mkPath (pt :: sampled moves1)
                   (strokeColor (passed m)) (brushWidth (passed m))]
      /\ length (pt :: sampled moves1) = length moves1 + 1).
Proof.
  intros Hc H1 H2 m'. subst m'.
  rewrite (stroke_commit_between_renders m canvas event pt moves1 moves2 Hc H1 H2).
  cbn [currentPath isDrawing history]. repeat split.
  - intros H0. rewrite H0. reflexivity.
  - destruct (Nat.leb_spec 1 (length moves1)); [reflexivity|lia].
  - cbn [length]. rewrite (sampled_length moves1 H1). lia.
Qed.

(** Press, render, one move, release before the next render: nothing is
    committed, and the stroke is gone. *)
Lemma pointer_up_commits_rendered_path_witness :
  currentPath (queued
    (play (Deliver press :: Render :: map Deliver [] ++ Render
           :: map Deliver oneMove ++ [Deliver PointerUp])
          (fresh (mount defaultProps)))) = None
  /\ history (queued
    (play (Deliver press :: Render :: map Deliver [] ++ Render
           :: map Deliver oneMove ++ [Deliver PointerUp])
          (fresh (mount defaultProps)))) = [].
Proof.
  pose proof (pointer_up_commits_rendered_path (fresh (mount defaultProps))
                (Some mountedCanvas) (MouseEvent 18%float 58%float)
                (mkPoint 10%float 10%float) [] oneMove
                eq_refl eq_refl eq_refl) as H.
  split; [exact (proj1 H)|exact (proj1 (proj2 (proj2 H)) eq_refl)].
Defined.

(** With a render after every event the stroke is committed whole. *)
Lemma stroke_commit_rendered (c : Component)
  (canvas : option HTMLCanvasElement) (event : Event) (pt : Point)
  (moves : list Action) :
  isDrawing (state c) = false ->
  currentPath (state c) = None ->
  getCoordinates canvas event = Some pt ->
  forallb resolves moves = true ->
  1 <= length moves ->
  history (queued (play (rendered_after_each
                           (PointerDown canvas event :: moves ++ [PointerUp]))
                        (fresh c))) =
  history (state c)
  ++ [mkPath (pt :: sampled moves)
             (strokeColor (props c)) (brushWidth (props c))].
Proof.
  intros Hd Hp Hc Hmoves Hlen. rewrite play_rendered. cbn [fresh queued].
  exact (proj1 (proj2 (proj2 (stroke_commit c canvas event pt moves
                                Hd Hp Hc Hmoves)) Hlen)).
Qed.

(** X12. A pointer-up whose listener holds, from the last render, a path
    of two or more points appends that path to History, whatever the
    moves queued since; the [undo()] that follows, with or without a
    render in between, gives back the History from before the
    pointer-up. *)
Theorem pointer_up_then_undo (m : Mounted) (cp : Path) (render : bool) :
  isDrawing (rendered m) = true ->
  currentPath (rendered m) = Some cp ->
  2 <= length (points cp) ->
  history (queued (tick m (Deliver PointerUp))) = history (queued m) ++ [cp]
  /\ history (queued (play (Deliver PointerUp
                             :: (if render then [Render] else [])
                             ++ [Deliver CallUndo]) m)) =
     history (queued m).
Proof.
  intros Hd Hcp Hlen.
  assert (E : queued (tick m (Deliver PointerUp)) =
              mkState false (history (queued m) ++ [cp]) None).
  { cbn [tick deliver queued]. unfold finishDrawing_in. rewrite Hd, Hcp.
    cbn [negb].
    destruct (Nat.ltb_spec 1 (length (points cp))) as [_|H]; [reflexivity|lia]. }
  split; [rewrite E; reflexivity|].
  destruct render;
    match goal with
    | |- _ = ?before =>
        change (history (undo (queued (tick m (Deliver PointerUp)))) = before)
    end;
    rewrite E; cbn [undo history]; apply slice_0_minus1_snoc.
Qed.

Lemma pointer_up_then_undo_witness :
  history (queued (tick strokeRendered (Deliver PointerUp))) =
    history (queued strokeRendered)
    ++ [mkPath [mkPoint 10%float 10%float; mkPoint 20%float 20%float;
                mkPoint 30%float 30%float] "#FFFFFF" 5%float]
  /\ history (queued (play (Deliver PointerUp
                             :: (if true then [Render] else [])
                             ++ [Deliver CallUndo]) strokeRendered)) =
     history (queued strokeRendered).
Proof.
  exact (pointer_up_then_undo strokeRendered _ true
           eq_refl eq_refl ltac:(cbn; lia)).
Defined.

(** X21. A stroke drawn with the eraser selected, the component rendering
    after every event, is committed like any other: History grows by one
    path, whose colour is the canvas colour and whose width is the width
    of the tools, and an [undo()] takes it out again. *)
Theorem eraser_stroke_rendered (t : Tools) (s : State)
  (canvas : option HTMLCanvasElement) (event : Event) (pt : Point)
  (moves : list Action) :
  getCoordinates canvas event = Some pt ->
  forallb resolves moves = true ->
  1 <= length moves ->
  let erasing := mkComponent (canvasProps (handleEraserSelect t)) s in
  let m' :=
    play (rendered_after_each (PointerDown canvas event :: moves ++ [PointerUp]))
         (fresh erasing) in
  history (queued m') =
    history s ++ [mkPath (pt :: sampled moves)
                         (canvasColor (passed m')) (tool_strokeWidth t)]
  /\ history (queued (tick m' (Deliver CallUndo))) = history s.
Proof.
  intros Hc Hmoves Hlen erasing m'. subst m'. rewrite play_rendered.
  exact (eraser_stroke t s canvas event pt moves Hc Hmoves Hlen).
Qed.

Lemma eraser_stroke_rendered_witness :
  history (queued
    (play (rendered_after_each (press :: twoMoves ++ [PointerUp]))
          (fresh (mkComponent (canvasProps (handleEraserSelect initialTools))
                              initialState)))) =
  [] ++ [mkPath (mkPoint 10%float 10%float :: sampled twoMoves)
                "#1e293b" 5%float].
Proof.
  exact (proj1 (eraser_stroke_rendered initialTools initialState
                  (Some mountedCanvas) (MouseEvent 18%float 58%float)
                  (mkPoint 10%float 10%float) twoMoves
                  eq_refl eq_refl ltac:(cbn; lia))).
Defined.

(** X25. A pointer-down that resolves during a stroke starts the stroke
    anew: the samples taken so far are dropped without being committed.
    With a render after every event, after a first press with its moves,
    a second press with one or more moves that resolve, and a pointer-up,
    History has grown by the one path of the second press and its
    moves. *)
Theorem second_press_restarts_rendered (c : Component)
  (canvas1 canvas2 : option HTMLCanvasElement) (event1 event2 : Event)
  (pt1 pt2 : Point) (moves1 moves2 : list Action) :
  getCoordinates canvas1 event1 = Some pt1 ->
  getCoordinates canvas2 event2 = Some pt2 ->
  forallb resolves moves1 = true ->
  forallb resolves moves2 = true ->
  1 <= length moves2 ->
  history (queued (play (rendered_after_each
                           (PointerDown canvas1 event1 :: moves1
                            ++ PointerDown canvas2 event2 :: moves2
                            ++ [PointerUp]))
                        (fresh c))) =
  history (state c)
  ++ [mkPath (pt2 :: sampled moves2)
             (strokeColor (props c)) (brushWidth (props c))].
Proof.
  intros H1 H2 Hm1 Hm2 Hlen. rewrite play_rendered. cbn [fresh queued].
  exact (second_press_restarts_stroke c canvas1 canvas2 event1 event2
           pt1 pt2 moves1 moves2 H1 H2 Hm1 Hm2 Hlen).
Qed.

Lemma second_press_restarts_rendered_witness :
  history (queued (play (rendered_after_each
                           (press :: twoMoves ++ press :: twoMoves
                            ++ [PointerUp]))
                        (fresh (mount defaultProps)))) =
  [] ++ [mkPath (mkPoint 10%float 10%float :: sampled twoMoves)
                "#FFFFFF" 5%float].
Proof.
  exact (second_press_restarts_rendered (mount defaultProps)
           (Some mountedCanvas) (Some mountedCanvas)
           (MouseEvent 18%float 58%float) (MouseEvent 18%float 58%float)
           (mkPoint 10%float 10%float) (mkPoint 10%float 10%float)
           twoMoves twoMoves eq_refl eq_refl eq_refl eq_refl
           ltac:(cbn; lia)).
Defined.
